(** * Bitvavo_Trader: the volatility scanner and the portfolio reporter

    A shallow embedding of [evaluate_volatility.py] and
    [bitvavo_telegram.py], and the properties of the rate gate, the
    market selection, the parallel fetch, the ranking and the portfolio
    report that hold of them.

    Conventions.
    - Python [int]s are [Z]; counts and slice bounds that the code only
      uses with non-negative literals are [nat].
    - [time.time()] readings are rationals ([Q], in seconds).  Prices and
      scores are real numbers ([R]) next to an explicit [NaN]; amounts of
      the portfolio are rationals.  Rounding of the floats is not
      modelled.
    - Python's [dict] is stdpp's [gmap] with string keys. *)

From Stdlib Require Import ZArith QArith Qabs Reals Lia Lqa Lra List Bool String.
From Stdlib Require Import Sorting.Permutation Sorting.Sorted.
From stdpp Require Import base option list gmap strings.

(* ===================================================================== *)
(** * Part I: the programs                                               *)
(* ===================================================================== *)

(** ** The rate gate of [evaluate_volatility.py] *)

Module RateGate.

Local Open Scope Q_scope.

(** [x < y] on rationals, as a boolean. *)
Definition Qlt_bool (x y : Q) : bool := negb (Qle_bool y x).

(** The module-level globals, the lock and the system clock.  [clock]
    is the last reading of [time.time()]; [delays] lists how much time
    goes by before each coming reading (none left: no time goes by). *)
Record World := mkWorld {
  current_weight : Z;
  last_reset_time : Q;
  lock_held : bool;
  clock : Q;
  delays : list Q
}.

(** A call either returns, or waits for ever for [lock]. *)
Inductive outcome (A : Type) : Type :=
| Returned (a : A) (w : World)
| Blocked (w : World).
Arguments Returned {A} a w.
Arguments Blocked {A} w.

Definition M (A : Type) : Type := World -> outcome A.

Definition ret {A} (a : A) : M A := fun w => Returned a w.

Definition bind {A B} (m : M A) (k : A -> M B) : M B :=
  fun w => match m w with
           | Returned a w' => k a w'
           | Blocked w' => Blocked w'
           end.

Declare Scope gate_scope.
Delimit Scope gate_scope with gate.
Notation "x <- m ;; k" := (bind m (fun x => k))
  (at level 100, m at next level, right associativity) : gate_scope.
Notation "m ;; k" := (bind m (fun _ => k))
  (at level 100, right associativity) : gate_scope.
Local Open Scope gate_scope.

Definition get_current_weight : M Z := fun w => Returned (current_weight w) w.
Definition get_last_reset_time : M Q := fun w => Returned (last_reset_time w) w.

Definition set_current_weight (c : Z) : M unit := fun w =>
  Returned tt (mkWorld c (last_reset_time w) (lock_held w) (clock w) (delays w)).

Definition set_last_reset_time (t : Q) : M unit := fun w =>
  Returned tt (mkWorld (current_weight w) t (lock_held w) (clock w) (delays w)).

(** [time.time()] *)
Definition time_time : M Q := fun w =>
  match delays w with
  | [] => Returned (clock w) w
  | d :: ds =>
      let t := clock w + d in
      Returned t (mkWorld (current_weight w) (last_reset_time w) (lock_held w) t ds)
  end.

(** [time.sleep(secs)]: at least [secs] seconds go by; what the thread
    oversleeps is part of the delay before the next reading. *)
Definition time_sleep (secs : Q) : M unit := fun w =>
  Returned tt (mkWorld (current_weight w) (last_reset_time w) (lock_held w)
                       (clock w + secs) (delays w)).

(** [lock = threading.Lock()] is not re-entrant: [lock.acquire()] by the
    thread that holds it never returns. *)
Definition lock_acquire : M unit := fun w =>
  if lock_held w then Blocked w
  else Returned tt (mkWorld (current_weight w) (last_reset_time w) true (clock w) (delays w)).

Definition lock_release : M unit := fun w =>
  Returned tt (mkWorld (current_weight w) (last_reset_time w) false (clock w) (delays w)).

(** [with lock: body] *)
Definition with_lock {A} (body : M A) : M A :=
  lock_acquire ;; r <- body ;; lock_release ;; ret r.

Definition RATE_LIMIT_PER_MINUTE : Q := 1200.
Definition WEIGHT_THRESHOLD : Q := RATE_LIMIT_PER_MINUTE * (9 # 10).

Definition reset_rate_limit : M unit :=
  current_time <- time_time ;;
  last <- get_last_reset_time ;;
  if Qle_bool 60 (current_time - last) then
    with_lock (set_current_weight 0 ;; set_last_reset_time current_time)
  else ret tt.

Definition check_rate_limit (request_weight : Z) : M unit :=
  reset_rate_limit ;;
  with_lock
    (cw <- get_current_weight ;;
     (if Qlt_bool WEIGHT_THRESHOLD (inject_Z (cw + request_weight)) then
        now <- time_time ;;
        last <- get_last_reset_time ;;
        let sleep_time := 60 - (now - last) in
        if Qlt_bool 0 sleep_time then
          time_sleep sleep_time ;; reset_rate_limit
        else ret tt
      else ret tt) ;;
     cw' <- get_current_weight ;;
     set_current_weight (cw' + request_weight)).

(** A run of calls one after the other, as one thread makes them. *)
Fixpoint check_rate_limits (request_weights : list Z) : M unit :=
  match request_weights with
  | [] => ret tt
  | rw :: rws => check_rate_limit rw ;; check_rate_limits rws
  end.

(** The state of the module when it has just been imported at [t0]. *)
Definition initial (t0 : Q) (ds : list Q) : World := mkWorld 0 t0 false t0 ds.

(** What the next [time.time()] reads in [w]. *)
Definition next_time (w : World) : Q :=
  match delays w with
  | [] => clock w
  | d :: _ => clock w + d
  end.

(** The world in which the opening [reset_rate_limit()] of a call leaves
    the globals, when the lock is free. *)
Definition after_reset_check (w : World) : World :=
  let t := next_time w in
  if Qle_bool 60 (t - last_reset_time w)
  then mkWorld 0 t (lock_held w) t (tl (delays w))
  else mkWorld (current_weight w) (last_reset_time w) (lock_held w) t (tl (delays w)).

(** The request fits: the test of [check_rate_limit] is false. *)
Definition fits (w : World) (request_weight : Z) : Prop :=
  inject_Z (current_weight w + request_weight) <= WEIGHT_THRESHOLD.

End RateGate.

(** ** Python's built-ins that the scripts use *)

Module Py.

(** A [float]: a real number or NaN.  Comparisons with NaN are false. *)
Inductive float : Type :=
| NaN
| Num (x : R).

Definition isnan (x : float) : bool :=
  match x with NaN => true | Num _ => false end.

Definition Rlt_bool (x y : R) : bool := if Rlt_dec x y then true else false.

Definition float_lt (x y : float) : bool :=
  match x, y with
  | Num a, Num b => Rlt_bool a b
  | _, _ => false
  end.

Definition float_mul (x y : float) : float :=
  match x, y with
  | Num a, Num b => Num (a * b)
  | _, _ => NaN
  end.

(** [x / y], for a divisor that is not zero (a price). *)
Definition float_div (x y : float) : float :=
  match x, y with
  | Num a, Num b => Num (a / b)
  | _, _ => NaN
  end.

(** [np.log], for a positive number; the prices of the frames are
    positive, and so are their ratios. *)
Definition log (x : float) : float :=
  match x with Num a => Num (ln a) | NaN => NaN end.

Section Sorted.
Context {A K : Type} (key : A -> K) (lt : K -> K -> bool).

(** [sorted(l, key=key, reverse=True)].  [sorted] is a stable sort that
    compares keys with [<] only; with [reverse=True] the greater keys come
    first and elements that compare equal stay in their order.  [x]
    goes behind the elements whose key is greater and in front of the
    first one whose key is not. *)
Fixpoint insert_reverse (x : A) (l : list A) : list A :=
  match l with
  | [] => [x]
  | y :: l' => if lt (key x) (key y) then y :: insert_reverse x l' else x :: l
  end.

Definition sorted_reverse (l : list A) : list A :=
  fold_right insert_reverse [] l.

(** [a] may stand in front of [b]: its key is not the smaller one. *)
Definition not_below (a b : A) : Prop := lt (key a) (key b) = false.

(** The elements whose key compares equal to [c]. *)
Definition tie (c : K) (y : A) : bool :=
  negb (lt c (key y)) && negb (lt (key y) c).

End Sorted.

(** [l[:n]] and [l[-n:]] for [n >= 0]; [l[-0:]] is all of [l]. *)
Definition slice_to {A} (n : nat) (l : list A) : list A := firstn n l.

Definition slice_last {A} (n : nat) (l : list A) : list A :=
  match n with
  | O => l
  | S _ => skipn (List.length l - n) l
  end.

(** [s.endswith(suffix)] *)
Definition endswith (s suffix : string) : bool :=
  let n := String.length s in
  let m := String.length suffix in
  (m <=? n)%nat && String.eqb (substring (n - m) m s) suffix.

End Py.

(** ** The scanner: [evaluate_volatility.py] *)

Module Scanner.
Import Py.

(** One entry of [client.get_ticker()], with the two fields that are
    read.  [quoteVolume] is the number that [float(x['quoteVolume'])]
    makes of the decimal string the exchange sends. *)
Record Ticker := mkTicker {
  symbol : string;
  quoteVolume : Q
}.

Definition usdt_pairs (tickers : list Ticker) : list Ticker :=
  List.filter (fun ticker => endswith (symbol ticker) "USDT") tickers.

Definition sorted_tickers (tickers : list Ticker) : list Ticker :=
  sorted_reverse quoteVolume RateGate.Qlt_bool (usdt_pairs tickers).

Definition top_coins (n : nat) (tickers : list Ticker) : list string :=
  map symbol (slice_to n (sorted_tickers tickers)).

(** [get_top_liquid_coins(n)], given what [client.get_ticker()] answers. *)
Definition get_top_liquid_coins (n : nat) (tickers : list Ticker)
  : RateGate.M (list string) :=
  RateGate.bind (RateGate.check_rate_limit 40)
    (fun _ => RateGate.ret (top_coins n tickers)).

(** The volume of [a] is at least that of [b]. *)
Definition volume_ge (a b : Ticker) : Prop := (quoteVolume b <= quoteVolume a)%Q.

(** A row of the data frame, with the two columns that are used. *)
Record Kline := mkKline {
  open_time : Z;
  close : R
}.

Definition DataFrame : Type := list Kline.

(** What the [try] body of [fetch_candlestick_data] does for one symbol:
    it builds the frame, raises an [Exception], or never gets through
    [check_rate_limit(1)]. *)
Inductive attempt : Type :=
| Fetched (df : DataFrame)
| Raised (e : string)
| Hangs.

(** [fetch_candlestick_data(symbol)]; [None] when the call never
    returns. *)
Definition fetch_candlestick_data (symbol : string) (a : attempt)
  : option (string * option DataFrame) :=
  match a with
  | Fetched df => Some (symbol, Some df)
  | Raised _ => Some (symbol, None)
  | Hangs => None
  end.

(** A future of the pool: [None] until its task is done. *)
Definition Future : Type := option (string * option DataFrame).

(** [[executor.submit(fetch_candlestick_data, symbol) for symbol in symbols]] *)
Definition submit_all (tasks : list (string * attempt)) : list Future :=
  map (fun _ => None) tasks.

(** The pool finishes task [i] and sets the result of its future. *)
Definition finish (tasks : list (string * attempt)) (futures : list Future) (i : nat)
  : list Future :=
  match tasks !! i with
  | Some (symbol, a) =>
      match fetch_candlestick_data symbol a with
      | Some r => <[i := Some r]> futures
      | None => futures
      end
  | None => futures
  end.

(** The pool at work: the tasks finish in the order [completion]. *)
Definition executor_run (tasks : list (string * attempt)) (completion : list nat)
  : list Future :=
  fold_left (finish tasks) completion (submit_all tasks).

(** [for future in futures: results.append(future.result())]; the loop
    does not end when a future is never done. *)
Fixpoint collect (futures : list Future) : option (list (string * option DataFrame)) :=
  match futures with
  | [] => Some []
  | f :: fs =>
      match f, collect fs with
      | Some r, Some rs => Some (r :: rs)
      | _, _ => None
      end
  end.

(** Step 2 of [main]. *)
Definition fetch_all (tasks : list (string * attempt)) (completion : list nat)
  : option (list (string * option DataFrame)) :=
  collect (executor_run tasks completion).

(** A column of floats. *)
Definition Series : Type := list float.

Definition closes (df : DataFrame) : Series := map (fun k => Num (close k)) df.

(** [s.shift(1)] *)
Definition shift1 (s : Series) : Series :=
  match s with
  | [] => []
  | _ :: _ => NaN :: removelast s
  end.

(** [s / t] and [np.log(s)], row by row *)
Definition series_div (s t : Series) : Series := zip_with float_div s t.
Definition series_log (s : Series) : Series := map log s.

(** The values of a column that are not NaN. *)
Definition dropna (s : Series) : list R :=
  flat_map (fun x => match x with Num a => [a] | NaN => [] end) s.

Definition Rsum (xs : list R) : R := fold_right Rplus 0%R xs.

Definition mean (xs : list R) : R := (Rsum xs / INR (List.length xs))%R.

(** The standard deviation of [n] values with [n - 1] in the
    denominator; it is NaN for fewer than two. *)
Definition stddev (xs : list R) : float :=
  if (List.length xs <? 2)%nat then NaN
  else Num (sqrt (Rsum (map (fun x => (x - mean xs) ^ 2)%R xs)
                  / (INR (List.length xs) - 1))).

(** [s.std()]: pandas leaves the NaN rows out. *)
Definition std (s : Series) : float := stddev (dropna s).

(** [df['log_return']] *)
Definition log_return (df : DataFrame) : Series :=
  series_log (series_div (closes df) (shift1 (closes df))).

Definition empty (df : DataFrame) : bool :=
  match df with [] => true | _ :: _ => false end.

Definition calculate_volatility (df : option DataFrame) : float :=
  match df with
  | None => NaN
  | Some d =>
      if empty d then NaN
      else float_mul (std (log_return d)) (Num (sqrt 1440))
  end.

(** Step 3 of [main]. *)
Definition volatilities (results : list (string * option DataFrame))
  : list (string * float) :=
  flat_map (fun r => match snd r with
                     | Some d => [(fst r, calculate_volatility (Some d))]
                     | None => []
                     end) results.

(** Step 4 of [main]: [sorted(volatilities, key=lambda x: x[1], reverse=True)] *)
Definition rank (v : list (string * float)) : list (string * float) :=
  sorted_reverse snd float_lt v.

Definition defined (x : string * float) : bool := negb (isnan (snd x)).

(** [[(x[0], x[1]) for x in volatilities[:k] if not np.isnan(x[1])]] and
    the same for [volatilities[-k:]]; [main] has [k = 10]. *)
Definition top_volatile (k : nat) (v : list (string * float)) : list (string * float) :=
  List.filter defined (slice_to k v).

Definition bottom_volatile (k : nat) (v : list (string * float)) : list (string * float) :=
  List.filter defined (slice_last k v).

Definition top_10_volatile := top_volatile 10.
Definition bottom_10_volatile := bottom_volatile 10.

(** The log returns in the words of the specification:
    [r[i] = ln(close[i] / close[i-1])] for [i] from 1 to [k - 1]. *)
Definition spec_log_returns (close : list R) : list R :=
  map (fun i => ln (nth i close 0 / nth (i - 1) close 0)%R)
      (seq 1 (List.length close - 1)).

(** The result of a fetch has a frame. *)
Definition present (r : string * option DataFrame) : bool :=
  match snd r with Some _ => true | None => false end.

(** Two entries with scores, the first score at least the second. *)
Definition score_ge (a b : string * float) : Prop :=
  match snd a, snd b with
  | Num x, Num y => (y <= x)%R
  | _, _ => False
  end.

End Scanner.

(** ** The portfolio reporter: [bitvavo_telegram.py] *)

Module Portfolio.
Local Open Scope Q_scope.

(** The values that the dictionaries of the script hold; [VRows] is the
    list [asset_values] of rows [[symbol, total_amount, value_eur]]. *)
Inductive value : Type :=
| VNone
| VInt (z : Z)
| VFloat (q : Q)
| VStr (s : string)
| VRows (rows : list (string * Q * Q)).

(** A computation that returns or raises an [Exception] with a message. *)
Inductive result (A : Type) : Type :=
| Ok (a : A)
| Raise (e : string).
Arguments Ok {A} a.
Arguments Raise {A} e.

Definition bind {A B} (m : result A) (k : A -> result B) : result B :=
  match m with
  | Ok a => k a
  | Raise e => Raise e
  end.

Declare Scope result_scope.
Delimit Scope result_scope with result.
Notation "x <- m ;; k" := (bind m (fun x => k))
  (at level 100, m at next level, right associativity) : result_scope.

(** An entry of [bitvavo.balance({})].  [available] and [inOrder] are
    what [float(asset["available"])] and [float(asset["inOrder"])] give:
    a number, or the exception they raise. *)
Record Asset := mkAsset {
  symbol : string;
  available : result Q;
  inOrder : result Q
}.

(** What asking for the price of a market comes to: [tickerPrice]
    raises, its answer has no ['price'], [float(price_data['price'])]
    raises, or there is a price. *)
Inductive price_reply : Type :=
| TickerRaised (e : string)
| NoPrice
| BadPrice (e : string)
| Price (q : Q).

(** The environment variables and the exchange. *)
Record Env := mkEnv {
  BITVAVO_API_KEY : option string;
  BITVAVO_API_SECRET : option string;
  balance : result (list Asset);
  tickerPrice : string -> price_reply;
  getRemainingLimit : result Z;
  TELEGRAM_BOT_TOKEN : option string;
  TELEGRAM_CHAT_ID : option string;
  send_message : result unit
}.

(** [not x] for what [os.getenv] returns: [None] and [''] are false. *)
Definition not_ (x : option string) : bool :=
  match x with
  | None => true
  | Some s => String.eqb s ""
  end.

(** The body of the [for asset in balance] loop. *)
Definition value_asset (env : Env) (acc : Q * list (string * Q * Q)) (asset : Asset)
  : result (Q * list (string * Q * Q)) :=
  (let total_portfolio_value := fst acc in
   let asset_values := snd acc in
   avail <- available asset ;;
   in_order <- inOrder asset ;;
   let total_amount := avail + in_order in
   let '(value_eur, total_portfolio_value') :=
     if String.eqb (symbol asset) "EUR" then
       (avail, total_portfolio_value + avail)
     else
       match tickerPrice env (symbol asset ++ "-EUR") with
       | Price price =>
           (total_amount * price, total_portfolio_value + total_amount * price)
       | TickerRaised _ | NoPrice | BadPrice _ => (0, total_portfolio_value)
       end in
   Ok (total_portfolio_value',
       asset_values ++ [(symbol asset, total_amount, value_eur)])
  )%result.

Fixpoint value_assets (env : Env) (acc : Q * list (string * Q * Q))
  (assets : list Asset) : result (Q * list (string * Q * Q)) :=
  match assets with
  | [] => Ok acc
  | asset :: rest =>
      (acc' <- value_asset env acc asset ;; value_assets env acc' rest)%result
  end.

(** The [try] block of [get_bitvavo_portfolio]. *)
Definition get_bitvavo_portfolio_try (env : Env) : result (gmap string value) :=
  (if not_ (BITVAVO_API_KEY env) || not_ (BITVAVO_API_SECRET env) then
     Raise "Bitvavo API key or secret not found in environment variables."
   else
     assets <- balance env ;;
     totals <- value_assets env (0, []) assets ;;
     limit <- getRemainingLimit env ;;
     Ok (<["portfolio_value_eur" := VFloat (fst totals)]>
           (<["asset_values" := VRows (snd totals)]>
              (<["rate_limit_remaining" := VInt limit]> ∅)))
  )%result.

(** [get_bitvavo_portfolio()]: [except Exception as e: return {"error": str(e)}] *)
Definition get_bitvavo_portfolio (env : Env) : gmap string value :=
  match get_bitvavo_portfolio_try env with
  | Ok portfolio => portfolio
  | Raise e => {[ "error" := VStr e ]}
  end.

(** What the script does to the outside: the messages it sends. *)
Inductive event : Type :=
| Message (chat_id : string) (portfolio_data : gmap string value).

(** [send_to_telegram(portfolio_data)]; its own [except] swallows what
    goes wrong. *)
Definition send_to_telegram (env : Env) (portfolio_data : gmap string value)
  : list event :=
  if not_ (TELEGRAM_BOT_TOKEN env) || not_ (TELEGRAM_CHAT_ID env) then []
  else
    match TELEGRAM_CHAT_ID env, send_message env with
    | Some chat_id, Ok _ => [Message chat_id portfolio_data]
    | _, _ => []
    end.

(** ["error" not in portfolio_data] *)
Definition no_error (portfolio_data : gmap string value) : bool :=
  match portfolio_data !! "error" with
  | None => true
  | Some _ => false
  end.

Definition main (env : Env) : list event :=
  let portfolio_data := get_bitvavo_portfolio env in
  if no_error portfolio_data then send_to_telegram env portfolio_data
  else [].

Definition Qsum (xs : list Q) : Q := fold_right Qplus 0 xs.

(** What a row of [asset_values] says of its asset: the amount is
    [available + inOrder]; the value in euro is [available] for EUR, the
    amount times the price for another asset with a price, and 0 for one
    without. *)
Definition row_of (env : Env) (asset : Asset) (row : string * Q * Q) : Prop :=
  exists avail in_order,
    available asset = Ok avail /\ inOrder asset = Ok in_order /\
    fst (fst row) = symbol asset /\
    snd (fst row) = avail + in_order /\
    (symbol asset = "EUR" -> snd row = avail) /\
    (symbol asset <> "EUR" ->
       forall price, tickerPrice env (symbol asset ++ "-EUR") = Price price ->
         snd row = (avail + in_order) * price) /\
    (symbol asset <> "EUR" ->
       (forall price, tickerPrice env (symbol asset ++ "-EUR") <> Price price) ->
         snd row = 0).

End Portfolio.

(** ** The report of the scanner: the sheet, the plots and [main] *)

Module Report.
Import Py Scanner.
Import Portfolio(result, Ok, Raise).

(** A cell of the worksheet. *)
Inductive cell : Type :=
| CStr (s : string)
| CFloat (x : float).

(** The calls that [save_to_google_sheets] makes to the spreadsheet
    service, in their order; each returns or raises.  A call that raises
    has left the worksheet as it was. *)
Record Sheets := mkSheets {
  get_gspread_client : result unit;
  gc_open : result unit;
  spreadsheet_worksheet : result unit;
  worksheet_clear : result unit;
  worksheet_append_rows : result unit
}.

Definition headers : list cell :=
  [CStr "Timestamp"; CStr "Symbol"; CStr "Volatility"].

(** [[[timestamp, symbol, volatility] for symbol, volatility in top_10_volatile]] *)
Definition data (timestamp : string) (top_10_volatile : list (string * float))
  : list (list cell) :=
  map (fun x => [CStr timestamp; CStr (fst x); CFloat (snd x)]) top_10_volatile.

(** [save_to_google_sheets(top_10_volatile)] on a worksheet with the rows
    [sheet]: what it returns or raises (its [except] logs and raises
    again), and the rows of the worksheet afterwards. *)
Definition save_to_google_sheets (api : Sheets) (timestamp : string)
  (top_10_volatile : list (string * float)) (sheet : list (list cell))
  : result unit * list (list cell) :=
  match get_gspread_client api with
  | Raise e => (Raise e, sheet)
  | Ok _ =>
  match gc_open api with
  | Raise e => (Raise e, sheet)
  | Ok _ =>
  match spreadsheet_worksheet api with
  | Raise e => (Raise e, sheet)
  | Ok _ =>
  match worksheet_clear api with
  | Raise e => (Raise e, sheet)
  | Ok _ =>
  match worksheet_append_rows api with
  | Raise e => (Raise e, [])
  | Ok _ => (Ok tt, [] ++ (headers :: data timestamp top_10_volatile))
  end end end end end.

(** A figure that has been saved. *)
Record Figure := mkFigure {
  title : string;
  path : string;
  lines : list (string * DataFrame)
}.

(** [for symbol, df in symbols: plt.plot(df['open_time'], df['close'], ...)];
    [df['open_time']] raises a [TypeError] when [df] is [None]. *)
Fixpoint plot_lines (symbols : list (string * option DataFrame))
  : result (list (string * DataFrame)) :=
  match symbols with
  | [] => Ok []
  | (symbol, Some df) :: rest =>
      match plot_lines rest with
      | Ok drawn => Ok ((symbol, df) :: drawn)
      | Raise e => Raise e
      end
  | (_, None) :: _ => Raise "'NoneType' object is not subscriptable"
  end.

Definition plot_price_courses (symbols : list (string * option DataFrame))
  (title filename : string) : result Figure :=
  match plot_lines symbols with
  | Ok drawn => Ok (mkFigure title ("plots/" ++ filename ++ ".png") drawn)
  | Raise e => Raise e
  end.

(** [[(symbol, df) for symbol, df in results if symbol in [x[0] for x in picked]]] *)
Definition chosen (results : list (string * option DataFrame))
  (picked : list (string * float)) : list (string * option DataFrame) :=
  List.filter (fun r => existsb (String.eqb (fst r)) (map fst picked)) results.

(** [if l:] for a list *)
Definition nonempty {A} (l : list A) : bool :=
  match l with [] => false | _ :: _ => true end.

(** What a run leaves behind: the rows of the worksheet and the figures
    saved, in their order. *)
Record Outside := mkOutside {
  sheet : list (list cell);
  figures : list Figure
}.

(** Steps 3 to 6 of [main], from the results of the fetch on. *)
Definition report (api : Sheets) (timestamp : string)
  (results : list (string * option DataFrame)) (out : Outside)
  : result unit * Outside :=
  let volatilities := rank (volatilities results) in
  let top_10_volatile := top_10_volatile volatilities in
  let bottom_10_volatile := bottom_10_volatile volatilities in
  let '(saved, sheet1) :=
    if nonempty top_10_volatile
    then save_to_google_sheets api timestamp top_10_volatile (sheet out)
    else (Ok tt, sheet out) in
  match saved with
  | Raise e => (Raise e, mkOutside sheet1 (figures out))
  | Ok _ =>
      let '(plotted, figures1) :=
        if nonempty top_10_volatile then
          match plot_price_courses (chosen results top_10_volatile)
                  "Top 10 Most Volatile Coins" "top_10_volatile" with
          | Ok fig => (Ok tt, figures out ++ [fig])
          | Raise e => (Raise e, figures out)
          end
        else (Ok tt, figures out) in
      match plotted with
      | Raise e => (Raise e, mkOutside sheet1 figures1)
      | Ok _ =>
          if nonempty bottom_10_volatile then
            match plot_price_courses (chosen results bottom_10_volatile)
                    "Top 10 Least Volatile Coins" "bottom_10_volatile" with
            | Ok fig => (Ok tt, mkOutside sheet1 (figures1 ++ [fig]))
            | Raise e => (Raise e, mkOutside sheet1 figures1)
            end
          else (Ok tt, mkOutside sheet1 figures1)
      end
  end.

(** [main()]: the tickers that the exchange answers, what the fetch of
    each symbol comes to, the order in which the pool finishes the tasks,
    the spreadsheet service and the time of the report.  [None]: the run
    never ends (the gate or a future never lets go). *)
Definition main (tickers : list Ticker) (attempts : string -> attempt)
  (completion : list nat) (api : Sheets) (timestamp : string)
  (out : Outside) (w : RateGate.World) : option (result unit * Outside) :=
  match get_top_liquid_coins 100 tickers w with
  | RateGate.Blocked _ => None
  | RateGate.Returned symbols _ =>
      match fetch_all (map (fun symbol => (symbol, attempts symbol)) symbols) completion with
      | None => None
      | Some results => Some (report api timestamp results out)
      end
  end.

End Report.

(* ===================================================================== *)
(** * Part II: the properties                                            *)
(* ===================================================================== *)

Section RateGateFacts.
Import RateGate.
Local Open Scope Q_scope.
Local Open Scope gate_scope.

Lemma Qlt_bool_iff x y : Qlt_bool x y = true <-> x < y.
Proof.
  unfold Qlt_bool. rewrite negb_true_iff.
  destruct (Qle_bool y x) eqn:E.
  - apply Qle_bool_iff in E. split; [discriminate | intros H; exfalso; Lqa.lra].
  - split; [intros _ | reflexivity].
    apply Qnot_le_lt. intros H. apply Qle_bool_iff in H. congruence.
Qed.

Lemma Qlt_bool_false x y : Qlt_bool x y = false <-> y <= x.
Proof.
  unfold Qlt_bool. rewrite negb_false_iff. apply Qle_bool_iff.
Qed.

Lemma WEIGHT_THRESHOLD_value : WEIGHT_THRESHOLD == 1080.
Proof. reflexivity. Qed.

Lemma time_time_next w :
  exists w', time_time w = Returned (next_time w) w' /\
    current_weight w' = current_weight w /\
    last_reset_time w' = last_reset_time w /\
    lock_held w' = lock_held w /\
    clock w' = next_time w /\ delays w' = tl (delays w).
Proof.
  unfold time_time, next_time. destruct w as [cw last held clk [|d ds]]; simpl;
    (eexists; split; [reflexivity|]); simpl; repeat split; reflexivity.
Qed.

(** The opening reset check returns when the lock is free, and zeroes the
    counter exactly when a minute or more has gone by on its reading. *)
Lemma reset_rate_limit_free w :
  lock_held w = false ->
  reset_rate_limit w = Returned tt (after_reset_check w).
Proof.
  intros Hfree. unfold reset_rate_limit, after_reset_check, bind, get_last_reset_time.
  unfold time_time, next_time.
  destruct w as [cw last held clk ds]; simpl in *. subst held.
  destruct ds as [|d ds]; simpl;
    (destruct (Qle_bool 60 _) eqn:E; [| reflexivity]);
    reflexivity.
Qed.

(** Inside [with lock:] the reset either finds the window still open and
    does nothing, or needs the lock that its caller holds. *)
Lemma reset_rate_limit_held w :
  lock_held w = true ->
  60 <= next_time w - last_reset_time w ->
  exists w', reset_rate_limit w = Blocked w'.
Proof.
  intros Hheld Hexp. unfold reset_rate_limit, bind, get_last_reset_time.
  destruct (time_time_next w) as (w' & -> & _ & Hl & Hh & _ & _).
  rewrite Hl. apply Qle_bool_iff in Hexp. rewrite Hexp.
  unfold with_lock, bind, lock_acquire. rewrite Hh, Hheld. eauto.
Qed.

(** A request that fits is let through at once: the call returns, the
    weight is added and the lock is free again. *)
Lemma check_rate_limit_fits w rw :
  lock_held w = false ->
  fits (after_reset_check w) rw ->
  exists w', check_rate_limit rw w = Returned tt w' /\
    current_weight w' = (current_weight (after_reset_check w) + rw)%Z /\
    last_reset_time w' = last_reset_time (after_reset_check w) /\
    lock_held w' = false /\
    clock w' = next_time w /\ delays w' = tl (delays w).
Proof.
  intros Hfree Hfits. unfold check_rate_limit, bind at 1.
  rewrite (reset_rate_limit_free w Hfree).
  assert (Hfree0 : lock_held (after_reset_check w) = false).
  { unfold after_reset_check. destruct (Qle_bool _ _); simpl; assumption. }
  assert (Hclk : clock (after_reset_check w) = next_time w).
  { unfold after_reset_check. destruct (Qle_bool _ _); reflexivity. }
  assert (Hds : delays (after_reset_check w) = tl (delays w)).
  { unfold after_reset_check. destruct (Qle_bool _ _); reflexivity. }
  revert Hfits Hfree0 Hclk Hds. generalize (after_reset_check w) as w0.
  intros [cw last held clk ds]; unfold fits; simpl. intros Hfits -> <- <-.
  apply Qlt_bool_false in Hfits.
  unfold with_lock, bind, lock_acquire, get_current_weight; simpl.
  rewrite Hfits. simpl. eexists. split; [reflexivity|]. simpl. repeat split; reflexivity.
Qed.

(** A request that does not fit while the window is still open, on a
    clock that does not run backwards, sleeps to the end of the window and
    then waits for ever for the lock it holds itself.  The weight is not
    added and the window is not reset. *)
Lemma check_rate_limit_over_threshold_blocks w rw :
  lock_held w = false ->
  Forall (fun d => 0 <= d) (delays w) ->
  ~ fits (after_reset_check w) rw ->
  next_time (after_reset_check w) - last_reset_time (after_reset_check w) < 60 ->
  exists w', check_rate_limit rw w = Blocked w' /\
    current_weight w' = current_weight (after_reset_check w) /\
    last_reset_time w' = last_reset_time (after_reset_check w) /\
    lock_held w' = true.
Proof.
  intros Hfree Hmono Hover Hopen. unfold check_rate_limit, bind at 1.
  rewrite (reset_rate_limit_free w Hfree).
  assert (Hfree0 : lock_held (after_reset_check w) = false).
  { unfold after_reset_check. destruct (Qle_bool _ _); simpl; assumption. }
  assert (Hmono0 : Forall (fun d => 0 <= d) (delays (after_reset_check w))).
  { assert (Forall (fun d => 0 <= d) (tl (delays w))) by
      (destruct (delays w); [constructor | inversion Hmono; assumption]).
    unfold after_reset_check. destruct (Qle_bool _ _); simpl; assumption. }
  revert Hover Hopen Hfree0 Hmono0. generalize (after_reset_check w) as w0.
  intros [cw last held clk ds]; unfold fits, next_time; simpl.
  intros Hover Hopen -> Hmono0.
  assert (Hlt : Qlt_bool WEIGHT_THRESHOLD (inject_Z (cw + rw)) = true).
  { apply Qlt_bool_iff. apply Qnot_le_lt. exact Hover. }
  unfold with_lock, bind, lock_acquire, get_current_weight; simpl.
  rewrite Hlt. unfold time_time, get_last_reset_time, time_sleep, reset_rate_limit, bind; simpl.
  destruct ds as [|d2 ds]; simpl in *.
  - assert (Hs : Qlt_bool 0 (60 - (clk - last)) = true) by (apply Qlt_bool_iff; Lqa.lra).
    rewrite Hs. unfold time_time; simpl.
    assert (Hr : Qle_bool 60 (clk + (60 - (clk - last)) - last) = true)
      by (apply Qle_bool_iff; Lqa.lra).
    rewrite Hr. unfold with_lock, bind, lock_acquire; simpl.
    eexists. split; [reflexivity|]. simpl. repeat split; reflexivity.
  - assert (Hs : Qlt_bool 0 (60 - (clk + d2 - last)) = true) by (apply Qlt_bool_iff; Lqa.lra).
    rewrite Hs. unfold time_time; simpl.
    inversion Hmono0 as [|? ? Hd2 Hds]; subst.
    destruct ds as [|d3 ds]; simpl.
    + assert (Hr : Qle_bool 60 (clk + d2 + (60 - (clk + d2 - last)) - last) = true)
        by (apply Qle_bool_iff; Lqa.lra).
      rewrite Hr. unfold with_lock, bind, lock_acquire; simpl.
      eexists. split; [reflexivity|]. simpl. repeat split; reflexivity.
    + inversion Hds as [|? ? Hd3 _]; subst.
      assert (Hr : Qle_bool 60 (clk + d2 + (60 - (clk + d2 - last)) + d3 - last) = true)
        by (apply Qle_bool_iff; Lqa.lra).
      rewrite Hr. unfold with_lock, bind, lock_acquire; simpl.
      eexists. split; [reflexivity|]. simpl. repeat split; reflexivity.
Qed.

Lemma after_reset_check_weight w :
  current_weight (after_reset_check w) = 0%Z \/
  current_weight (after_reset_check w) = current_weight w.
Proof. unfold after_reset_check. destruct (Qle_bool _ _); simpl; auto. Qed.

(** A thread that stays within the budget is never held up: from a free
    lock, calls whose weights add up to no more than what is left under
    the threshold all return, whatever the clock does. *)
Lemma check_rate_limits_within_budget rws : forall w,
  lock_held w = false ->
  (0 <= current_weight w)%Z ->
  Forall (fun rw => 0 <= rw)%Z rws ->
  inject_Z (current_weight w + fold_right Z.add 0%Z rws) <= WEIGHT_THRESHOLD ->
  exists w', check_rate_limits rws w = Returned tt w' /\
    lock_held w' = false /\
    (0 <= current_weight w' <= current_weight w + fold_right Z.add 0%Z rws)%Z.
Proof.
  induction rws as [|rw rws IH]; intros w Hfree Hpos Hall Hsum; simpl in *.
  - exists w. unfold ret. repeat split; try assumption; lia.
  - inversion Hall as [|? ? Hrw Hrws]; subst.
    assert (Hrest : (0 <= fold_right Z.add 0 rws)%Z).
    { clear -Hrws. induction Hrws; simpl; lia. }
    assert (Hfit : fits (after_reset_check w) rw).
    { unfold fits. eapply Qle_trans; [|exact Hsum]. rewrite <- Zle_Qle.
      destruct (after_reset_check_weight w) as [-> | ->]; lia. }
    destruct (check_rate_limit_fits w rw Hfree Hfit) as (w1 & Hrun & Hcw & _ & Hfree1 & _).
    unfold bind. rewrite Hrun.
    destruct (IH w1) as (w' & Hrun' & Hfree' & Hb); try assumption.
    + rewrite Hcw. destruct (after_reset_check_weight w) as [-> | ->]; lia.
    + eapply Qle_trans; [|exact Hsum]. rewrite <- Zle_Qle. rewrite Hcw.
      destruct (after_reset_check_weight w) as [-> | ->]; lia.
    + exists w'. repeat split; try assumption; try lia.
      rewrite Hcw in Hb. destruct (after_reset_check_weight w) as [E | E];
        rewrite E in Hb; lia.
Qed.

(** [main] asks for the tickers once (40 units) and for the candles of at
    most 100 symbols (one unit each): made one after the other, these calls
    are never held up, whatever the clock does. *)
Lemma main_gate_calls_return n t0 ds :
  (n <= 100)%nat ->
  exists w', check_rate_limits (40%Z :: repeat 1%Z n) (initial t0 ds) = Returned tt w' /\
    lock_held w' = false.
Proof.
  intros Hn.
  assert (Hsum : fold_right Z.add 0%Z (repeat 1%Z n) = Z.of_nat n).
  { clear Hn. induction n as [|n IH]; [reflexivity|].
    cbn [repeat fold_right]. rewrite IH. lia. }
  destruct (check_rate_limits_within_budget (40%Z :: repeat 1%Z n) (initial t0 ds))
    as (w' & Hrun & Hfree & _).
  - reflexivity.
  - simpl. lia.
  - constructor; [lia|]. clear. induction n; simpl; constructor; [lia | assumption].
  - cbn [fold_right initial current_weight]. rewrite Hsum, WEIGHT_THRESHOLD_value.
    change (1080:Q) with (inject_Z 1080). rewrite <- Zle_Qle. lia.
  - exists w'. split; assumption.
Qed.

(** C1 (as amended): every call opens with the reset check, which zeroes
    the counter and restarts the window exactly when a minute or more has
    gone by on its reading of the clock; a call whose weight then fits
    under the threshold returns with the weight added, the counter at most
    1080 and the lock free, so that the same holds of the next call. *)
Theorem rate_gate_window_invariant w rw :
  lock_held w = false ->
  reset_rate_limit w = Returned tt (after_reset_check w) /\
  (60 <= next_time w - last_reset_time w ->
     current_weight (after_reset_check w) = 0%Z /\
     last_reset_time (after_reset_check w) = next_time w) /\
  (fits (after_reset_check w) rw ->
     exists w', check_rate_limit rw w = Returned tt w' /\
       current_weight w' = (current_weight (after_reset_check w) + rw)%Z /\
       inject_Z (current_weight w') <= 1080 /\
       lock_held w' = false).
Proof.
  intros Hfree. split; [apply reset_rate_limit_free; assumption|]. split.
  - intros Hexp. apply Qle_bool_iff in Hexp. unfold after_reset_check.
    rewrite Hexp. simpl. split; reflexivity.
  - intros Hfit.
    destruct (check_rate_limit_fits w rw Hfree Hfit) as (w' & Hrun & Hcw & _ & Hfree' & _).
    exists w'. repeat split; try assumption.
    rewrite Hcw. unfold fits in Hfit. rewrite WEIGHT_THRESHOLD_value in Hfit. exact Hfit.
Qed.

Lemma rate_gate_window_invariant_witness :
  exists w', check_rate_limit 40 (mkWorld 1000 0 false 0 [75; 1]) = Returned tt w' /\
    current_weight w' = 40%Z /\ inject_Z (current_weight w') <= 1080.
Proof.
  destruct (rate_gate_window_invariant (mkWorld 1000 0 false 0 [75; 1]) 40 eq_refl)
    as (_ & _ & Hfit).
  destruct Hfit as (w' & Hrun & Hcw & Hle & _).
  - unfold fits. vm_compute. discriminate.
  - exists w'. repeat split; assumption.
Defined.

(** C1 (as stated) fails: the counter stands at 1080, the window opened at
    0; the reset check reads the clock at 59 and the test reads it at 60.
    Nothing is left to sleep, so the call returns at once with the weight
    added to the old counter: 1081, in a window that is over and was not
    reset. *)
Lemma rate_gate_exceeds_threshold :
  exists w',
    check_rate_limit 1 (mkWorld 1080 0 false 0 [59; 1]) = Returned tt w' /\
    current_weight w' = 1081%Z /\
    ~ inject_Z (current_weight w') <= WEIGHT_THRESHOLD /\
    60 <= clock w' - last_reset_time w'.
Proof.
  exists (mkWorld 1081 0 false 60 []).
  split; [vm_compute; reflexivity|]. split; [reflexivity|]. split.
  - vm_compute. intros H. apply H. reflexivity.
  - vm_compute. discriminate.
Qed.

(** C2: the module has just been imported; 27 calls of weight 40 use up
    the 1080 units of the window, and the next call, of weight 1, sleeps
    the 60 seconds that are left and then never returns: it waits for the
    lock that it holds.  The counter is still 1080 and the window still
    the old one. *)
Theorem rate_gate_blocks_for_ever :
  check_rate_limits (repeat 40%Z 27 ++ [1%Z]) (initial 0 [])
    = Blocked (mkWorld 1080 0 true 60 []).
Proof. vm_compute. reflexivity. Qed.

End RateGateFacts.

(** ** Sorting with [reverse=True] *)

Section SortedFacts.
Import Py.
Context {A K : Type} (key : A -> K) (lt : K -> K -> bool).

Lemma insert_reverse_perm x l :
  Permutation (insert_reverse key lt x l) (x :: l).
Proof.
  induction l as [|y l IH]; simpl; [reflexivity|].
  destruct (lt (key x) (key y)); [|reflexivity].
  rewrite IH. apply perm_swap.
Qed.

Lemma sorted_reverse_perm l : Permutation (sorted_reverse key lt l) l.
Proof.
  induction l as [|x l IH]; simpl; [reflexivity|].
  rewrite insert_reverse_perm. constructor. exact IH.
Qed.

Lemma sorted_reverse_length l :
  List.length (sorted_reverse key lt l) = List.length l.
Proof. apply Permutation_length, sorted_reverse_perm. Qed.

Hypothesis lt_asym : forall a b, lt a b = true -> lt b a = false.

Lemma insert_reverse_Sorted x l :
  Sorted (not_below key lt) l -> Sorted (not_below key lt) (insert_reverse key lt x l).
Proof.
  induction 1 as [|y l Hl IH Hhd]; simpl.
  - repeat constructor.
  - destruct (lt (key x) (key y)) eqn:E.
    + constructor; [exact IH|].
      destruct Hhd as [|z l' Hyz]; simpl.
      * constructor. apply lt_asym. exact E.
      * destruct (lt (key x) (key z)); constructor;
          [exact Hyz | apply lt_asym; exact E].
    + constructor; [constructor; assumption|]. constructor. exact E.
Qed.

Lemma sorted_reverse_Sorted l : Sorted (not_below key lt) (sorted_reverse key lt l).
Proof.
  induction l as [|x l IH]; simpl; [constructor|].
  apply insert_reverse_Sorted. exact IH.
Qed.

(** Sorting leaves a list alone in which no element is smaller than the
    one behind it. *)
Lemma sorted_reverse_fixed l :
  Sorted (not_below key lt) l -> sorted_reverse key lt l = l.
Proof.
  induction 1 as [|x l Hl IH Hhd]; simpl; [reflexivity|].
  rewrite IH. destruct Hhd as [|y l' Hxy]; simpl; [reflexivity|].
  unfold not_below in Hxy. rewrite Hxy. reflexivity.
Qed.

Lemma sorted_reverse_idempotent l :
  sorted_reverse key lt (sorted_reverse key lt l) = sorted_reverse key lt l.
Proof. apply sorted_reverse_fixed, sorted_reverse_Sorted. Qed.

(** The keys that [<] orders: between two keys that are not below each
    other in a row, the ends are not either when the middle is [good]. *)
Variable good : K -> Prop.
Hypothesis lt_negtrans : forall a b c,
  good b -> lt a b = false -> lt b c = false -> lt a c = false.

Lemma Sorted_not_below_strong l :
  Forall (fun x => good (key x)) l ->
  Sorted (not_below key lt) l -> StronglySorted (not_below key lt) l.
Proof.
  intros Hgood Hs. induction Hs as [|x l Hl IH Hhd]; [constructor|].
  inversion Hgood as [|? ? Hx Hgl]; subst.
  specialize (IH Hgl). constructor; [exact IH|].
  destruct Hhd as [|y l' Hxy]; [constructor|].
  inversion IH as [|? ? _ Hall]; subst.
  inversion Hgl as [|? ? Hy _]; subst.
  constructor; [exact Hxy|].
  eapply List.Forall_impl; [|exact Hall]. intros z Hyz.
  unfold not_below in *. eapply lt_negtrans; eauto.
Qed.

Lemma sorted_reverse_descending l :
  Forall (fun x => good (key x)) l ->
  StronglySorted (not_below key lt) (sorted_reverse key lt l).
Proof.
  intros Hgood. apply Sorted_not_below_strong; [|apply sorted_reverse_Sorted].
  eapply Permutation_Forall; [|exact Hgood].
  symmetry. apply sorted_reverse_perm.
Qed.

Lemma insert_reverse_stable c x l :
  good c ->
  List.filter (tie key lt c) (insert_reverse key lt x l)
    = List.filter (tie key lt c) (x :: l).
Proof.
  intros Hc. induction l as [|y l IH]; [reflexivity|].
  cbn [insert_reverse]. destruct (lt (key x) (key y)) eqn:E; [|reflexivity].
  cbn [List.filter] in *. rewrite IH.
  destruct (tie key lt c x) eqn:Tx, (tie key lt c y) eqn:Ty; try reflexivity.
  exfalso. unfold tie in Tx, Ty.
  apply andb_prop in Tx as [_ Tx], Ty as [Ty _].
  apply negb_true_iff in Tx, Ty.
  rewrite (lt_negtrans _ _ _ Hc Tx Ty) in E. discriminate.
Qed.

(** Elements that compare equal keep the order they came in. *)
Lemma sorted_reverse_stable c l :
  good c ->
  List.filter (tie key lt c) (sorted_reverse key lt l) = List.filter (tie key lt c) l.
Proof.
  intros Hc. induction l as [|x l IH]; [reflexivity|].
  cbn [sorted_reverse fold_right]. rewrite insert_reverse_stable by assumption.
  cbn [List.filter]. fold (sorted_reverse key lt l). rewrite IH. reflexivity.
Qed.

End SortedFacts.

(** ** Python floats *)

Section FloatFacts.
Import Py.

Lemma Rlt_bool_true x y : Rlt_bool x y = true <-> (x < y)%R.
Proof. unfold Rlt_bool. destruct (Rlt_dec x y); split; auto; discriminate. Qed.

Lemma Rlt_bool_false x y : Rlt_bool x y = false <-> (y <= x)%R.
Proof.
  unfold Rlt_bool. destruct (Rlt_dec x y); split; try reflexivity; try discriminate.
  - intros H. exfalso. lra.
  - intros _. lra.
Qed.

Lemma float_lt_asym a b : float_lt a b = true -> float_lt b a = false.
Proof.
  destruct a as [|x], b as [|y]; simpl; try reflexivity; try discriminate.
  rewrite Rlt_bool_true, Rlt_bool_false. lra.
Qed.

(** NaN is the one float that [<] does not order. *)
Lemma float_lt_negtrans a b c :
  isnan b = false ->
  float_lt a b = false -> float_lt b c = false -> float_lt a c = false.
Proof.
  destruct a as [|x], b as [|y], c as [|z]; simpl; try reflexivity; try discriminate.
  intros _. rewrite !Rlt_bool_false. lra.
Qed.

End FloatFacts.

(** ** The parallel fetch *)

Section FetchFacts.
Import Py Scanner.

Lemma submit_all_lookup tasks i t :
  tasks !! i = Some t -> submit_all tasks !! i = Some None.
Proof.
  unfold submit_all. revert i. induction tasks as [|t' tasks IH]; intros [|i]; simpl;
    try discriminate; auto.
Qed.

Lemma submit_all_length tasks : List.length (submit_all tasks) = List.length tasks.
Proof. apply List.length_map. Qed.

Lemma finish_length tasks futures i :
  List.length (finish tasks futures i) = List.length futures.
Proof.
  unfold finish. destruct (tasks !! i) as [[s a]|]; [|reflexivity].
  destruct (fetch_candlestick_data s a); [apply length_insert | reflexivity].
Qed.

Lemma executor_run_length tasks completion :
  List.length (executor_run tasks completion) = List.length tasks.
Proof.
  unfold executor_run. induction completion as [|i l IH] using rev_ind; simpl.
  - apply submit_all_length.
  - rewrite fold_left_app. simpl. rewrite finish_length. exact IH.
Qed.

(** The future of task [i] holds the result of task [i] once the task
    is done, whatever was done before or after it. *)
Lemma executor_run_lookup tasks completion i s a :
  tasks !! i = Some (s, a) ->
  executor_run tasks completion !! i
    = Some (if bool_decide (i ∈ completion) then fetch_candlestick_data s a else None).
Proof.
  intros Hi. unfold executor_run.
  induction completion as [|x l IH] using rev_ind.
  - cbn [fold_left]. rewrite bool_decide_eq_false_2 by apply not_elem_of_nil.
    eapply submit_all_lookup; eauto.
  - rewrite fold_left_app. cbn [fold_left].
    set (fs := fold_left (finish tasks) l (submit_all tasks)) in *.
    unfold finish. destruct (decide (i = x)) as [<-|Hne].
    + rewrite Hi. rewrite bool_decide_eq_true_2 by (apply elem_of_app; right; apply list_elem_of_singleton; reflexivity).
      destruct (fetch_candlestick_data s a) as [r|] eqn:Hf.
      * apply list_lookup_insert_eq. eapply lookup_lt_Some; eauto.
      * rewrite IH. destruct (bool_decide _); reflexivity.
    + assert (Hb : bool_decide (i ∈ l ++ [x]) = bool_decide (i ∈ l)).
      { apply bool_decide_ext. rewrite elem_of_app, list_elem_of_singleton. tauto. }
      rewrite Hb.
      destruct (tasks !! x) as [[s' a']|]; [|exact IH].
      destruct (fetch_candlestick_data s' a'); [|exact IH].
      rewrite list_lookup_insert_ne by auto. exact IH.
Qed.

Lemma collect_done rs : collect (map Some rs) = Some rs.
Proof. induction rs as [|r rs IH]; simpl; [reflexivity|]. rewrite IH. reflexivity. Qed.

(** What [fetch_candlestick_data] returns for a task that does not hang. *)
Lemma fetch_candlestick_data_returns s a :
  a <> Hangs ->
  fetch_candlestick_data s a
    = Some (s, match a with Fetched df => Some df | _ => None end).
Proof. destruct a; intros H; try reflexivity. congruence. Qed.

(** C3: whatever the order in which the pool finishes the tasks, when
    each of them is finished the results are collected one per symbol, in
    the order in which the symbols were submitted; the result of a task
    that raised is its symbol with no frame, and every other task still
    has its own result. *)
Theorem fetch_all_in_submission_order tasks completion :
  (forall i, i < List.length tasks -> i ∈ completion) ->
  Forall (fun t => snd t <> Hangs) tasks ->
  exists results,
    fetch_all tasks completion = Some results /\
    map fst results = map fst tasks /\
    forall i s a, tasks !! i = Some (s, a) ->
      results !! i = Some (s, match a with Fetched df => Some df | _ => None end).
Proof.
  intros Hall Hno.
  set (result := fun t : string * attempt =>
         (fst t, match snd t with Fetched df => Some df | _ => None end)).
  exists (map result tasks).
  assert (Hrun : executor_run tasks completion = map Some (map result tasks)).
  { apply list_eq. intros i.
    destruct (tasks !! i) as [[s a]|] eqn:Hi.
    - rewrite (executor_run_lookup _ _ _ _ _ Hi).
      rewrite bool_decide_eq_true_2 by (apply Hall; eapply lookup_lt_Some; eauto).
      rewrite List.Forall_forall in Hno.
      rewrite fetch_candlestick_data_returns
        by (apply (Hno (s, a)); apply list_elem_of_In; eapply list_elem_of_lookup_2; eauto).
      change (map Some (map result tasks)) with (Some <$> (result <$> tasks)).
      rewrite !list_lookup_fmap, Hi. reflexivity.
    - rewrite lookup_ge_None_2
        by (rewrite executor_run_length; apply lookup_ge_None; exact Hi).
      change (map Some (map result tasks)) with (Some <$> (result <$> tasks)).
      rewrite !list_lookup_fmap, Hi. reflexivity. }
  split; [|split].
  - unfold fetch_all. rewrite Hrun. apply collect_done.
  - rewrite List.map_map. reflexivity.
  - intros i s a Hi. change (map result tasks) with (result <$> tasks).
    rewrite list_lookup_fmap, Hi. reflexivity.
Qed.

Lemma fetch_all_in_submission_order_witness :
  exists results,
    fetch_all [("BTCUSDT", Fetched [mkKline 0 100; mkKline 60000 110]);
               ("ETHUSDT", Raised "APIError");
               ("XRPUSDT", Fetched [])] [2; 0; 1] = Some results /\
    map fst results = ["BTCUSDT"; "ETHUSDT"; "XRPUSDT"] /\
    results !! 1 = Some ("ETHUSDT", None).
Proof.
  destruct (fetch_all_in_submission_order
              [("BTCUSDT", Fetched [mkKline 0 100; mkKline 60000 110]);
               ("ETHUSDT", Raised "APIError");
               ("XRPUSDT", Fetched [])] [2; 0; 1])
    as (results & Hrun & Hsym & Hres).
  - intros i Hi. simpl in Hi.
    destruct i as [|[|[|i]]]; [| | |lia]; repeat constructor.
  - repeat constructor; discriminate.
  - exists results. split; [exact Hrun|]. split; [exact Hsym|].
    apply (Hres 1 "ETHUSDT" (Raised "APIError")). reflexivity.
Defined.

End FetchFacts.

(** ** The volatility score *)

Section VolatilityFacts.
Import Py Scanner.

Lemma removelast_cons2 {A} (x y : A) l :
  removelast (x :: y :: l) = x :: removelast (y :: l).
Proof. reflexivity. Qed.

Lemma log_return_step x y s t :
  dropna (series_log (series_div (Num x :: s) (Num y :: t)))
  = ln (x / y) :: dropna (series_log (series_div s t)).
Proof. reflexivity. Qed.

Lemma log_return_tail c0 cs :
  dropna (series_log (series_div (map Num cs) (removelast (map Num (c0 :: cs)))))
  = map (fun i => ln (nth i (c0 :: cs) 0 / nth (i - 1) (c0 :: cs) 0)%R)
        (seq 1 (List.length cs)).
Proof.
  revert c0. induction cs as [|c1 cs IH]; intros c0; [reflexivity|].
  change (map Num (c0 :: c1 :: cs)) with (Num c0 :: Num c1 :: map Num cs).
  change (map Num (c1 :: cs)) with (Num c1 :: map Num cs).
  rewrite removelast_cons2, log_return_step.
  change (Num c1 :: map Num cs) with (map Num (c1 :: cs)).
  rewrite IH. cbn [List.length seq map]. f_equal.
  rewrite <- (seq_shift (List.length cs) 1), List.map_map.
  apply List.map_ext_in. intros i Hi. apply in_seq in Hi.
  destruct i as [|i]; [lia|]. cbn [nth Nat.sub]. rewrite Nat.sub_0_r. reflexivity.
Qed.

(** The rows of [df['log_return']] that are not NaN are the log returns
    of the specification. *)
Lemma log_return_dropna df :
  dropna (log_return df) = spec_log_returns (map close df).
Proof.
  unfold log_return, spec_log_returns, closes.
  rewrite <- (List.map_map close Num).
  destruct (map close df) as [|c0 cs]; [reflexivity|].
  change (shift1 (map Num (c0 :: cs))) with (NaN :: removelast (map Num (c0 :: cs))).
  change (map Num (c0 :: cs)) with (Num c0 :: map Num cs) at 1.
  change (dropna (series_log (series_div (Num c0 :: map Num cs)
                                (NaN :: removelast (map Num (c0 :: cs))))))
    with (dropna (series_log (series_div (map Num cs)
                                (removelast (map Num (c0 :: cs)))))).
  replace (List.length (c0 :: cs) - 1) with (List.length cs) by (simpl; lia).
  apply (log_return_tail c0 cs).
Qed.

End VolatilityFacts.

Section ScoreFacts.
Import Py Scanner.





End ScoreFacts.

(** ** The ranking *)

Section RankFacts.
Import Py Scanner.

Lemma defined_isnan x : defined x = true <-> isnan (snd x) = false.
Proof. unfold defined. apply negb_true_iff. Qed.

Lemma rank_perm v : Permutation (rank v) v.
Proof. apply sorted_reverse_perm. Qed.

Lemma rank_idempotent v : rank (rank v) = rank v.
Proof. apply sorted_reverse_idempotent. exact float_lt_asym. Qed.

(** A frame that is there gives an entry, also when it has no rows. *)
Lemma volatilities_present s d results :
  In (s, Some d) results -> In (s, calculate_volatility (Some d)) (volatilities results).
Proof.
  intros Hin. unfold volatilities. apply in_flat_map.
  exists (s, Some d). split; [exact Hin|]. simpl. left. reflexivity.
Qed.

Lemma volatilities_symbols results :
  map fst (volatilities results) = map fst (List.filter present results).
Proof.
  unfold volatilities. induction results as [|[s [d|]] results IH]; simpl;
    [reflexivity | f_equal; exact IH | exact IH].
Qed.

Lemma not_below_score_ge v :
  Forall (fun x => defined x = true) v ->
  StronglySorted (not_below snd float_lt) v -> StronglySorted score_ge v.
Proof.
  intros Hdef Hs. induction Hs as [|x l Hl IH Hall]; [constructor|].
  inversion Hdef as [|? ? Hx Hdl]; subst. constructor; [auto|].
  rewrite List.Forall_forall in *. intros y Hy.
  specialize (Hall y Hy). specialize (Hdl y Hy).
  unfold not_below, score_ge, defined in *.
  destruct (snd x), (snd y); try discriminate.
  simpl in Hall. apply Rlt_bool_false. exact Hall.
Qed.

(** C4 (as amended): only the results without a frame are left out before
    the sort.  A frame without rows is scored NaN and its entry goes
    through the sort; the sort reorders the entries and drops none.  When
    every score that goes into the sort is defined, so is every score that
    comes out, the scores come out in descending order and entries with
    the same score keep the order they went in with. *)
Theorem rank_excludes_absent_only results :
  map fst (volatilities results) = map fst (List.filter present results) /\
  (forall s, In (s, Some []) results -> In (s, NaN) (rank (volatilities results))) /\
  Permutation (rank (volatilities results)) (volatilities results) /\
  (Forall (fun x => defined x = true) (volatilities results) ->
     Forall (fun x => defined x = true) (rank (volatilities results)) /\
     StronglySorted score_ge (rank (volatilities results)) /\
     forall x, List.filter (tie snd float_lt (Num x)) (rank (volatilities results))
               = List.filter (tie snd float_lt (Num x)) (volatilities results)).
Proof.
  split; [apply volatilities_symbols|]. split; [|split; [apply rank_perm|]].
  - intros s Hin. eapply Permutation_in; [symmetry; apply rank_perm|].
    apply (volatilities_present s [] results Hin).
  - intros Hdef.
    assert (Hdef' : Forall (fun x => defined x = true) (rank (volatilities results))).
    { eapply Permutation_Forall; [symmetry; apply rank_perm | exact Hdef]. }
    split; [exact Hdef'|]. split.
    + apply not_below_score_ge; [exact Hdef'|].
      apply (sorted_reverse_descending snd float_lt float_lt_asym
               (fun k => isnan k = false) float_lt_negtrans).
      eapply List.Forall_impl; [|exact Hdef]. intros a. apply defined_isnan.
    + intros x.
      apply (sorted_reverse_stable snd float_lt (fun k => isnan k = false)
               float_lt_negtrans (Num x)). reflexivity.
Qed.

Lemma rank_excludes_absent_only_witness :
  map fst (volatilities
    [("AUSDT", Some [mkKline 0 100; mkKline 60000 110; mkKline 120000 105]);
     ("BUSDT", None);
     ("CUSDT", Some [mkKline 0 50; mkKline 60000 50; mkKline 120000 50])])
  = ["AUSDT"; "CUSDT"] /\
  StronglySorted score_ge (rank (volatilities
    [("AUSDT", Some [mkKline 0 100; mkKline 60000 110; mkKline 120000 105]);
     ("BUSDT", None);
     ("CUSDT", Some [mkKline 0 50; mkKline 60000 50; mkKline 120000 50])])).
Proof.
  destruct (rank_excludes_absent_only
    [("AUSDT", Some [mkKline 0 100; mkKline 60000 110; mkKline 120000 105]);
     ("BUSDT", None);
     ("CUSDT", Some [mkKline 0 50; mkKline 60000 50; mkKline 120000 50])])
    as (Hsym & _ & _ & Hsorted).
  destruct Hsorted as (_ & Hdesc & _).
  - repeat constructor.
  - split; [exact Hsym | exact Hdesc].
Defined.

(** C4 (as stated) fails: a symbol whose frame has no rows is not left
    out before the sort; it is in the sorted sequence with the score
    NaN. *)
Lemma rank_keeps_empty_series :
  rank (volatilities [("BTCUSDT", Some [])]) = [("BTCUSDT", NaN)] /\
  ~ Forall (fun x => defined x = true) (rank (volatilities [("BTCUSDT", Some [])])).
Proof.
  split; [reflexivity|]. intros H. inversion H as [|? ? Hd _]; subst. discriminate.
Qed.

(** The symbols of the ranked entries are pairwise different when those
    of the results are. *)
Lemma rank_symbols_distinct results :
  NoDup (map fst results) -> NoDup (map fst (rank (volatilities results))).
Proof.
  intros Hnd.
  assert (Hv : NoDup (map fst (volatilities results))).
  { rewrite volatilities_symbols.
    induction results as [|r results IH]; [constructor|].
    cbn [map] in Hnd. apply NoDup_cons in Hnd as [Hr Hnd].
    cbn [List.filter]. destruct (present r); [|auto].
    cbn [map]. apply NoDup_cons. split; [|auto].
    intros Hin. apply Hr. apply list_elem_of_In. apply list_elem_of_In in Hin.
    apply in_map_iff in Hin as (x & Hx & Hin). apply filter_In in Hin as [Hin _].
    apply in_map_iff. exists x. split; assumption. }
  apply NoDup_ListNoDup.
  eapply Permutation_NoDup; [|apply NoDup_ListNoDup; exact Hv].
  apply Permutation_map. symmetry. apply rank_perm.
Qed.

(** C7: ranking what has been ranked changes nothing. *)
Theorem rank_twice results :
  rank (rank (volatilities results)) = rank (volatilities results).
Proof. apply rank_idempotent. Qed.

End RankFacts.

Section TopBottomFacts.
Import Py Scanner.

Lemma in_skipn_in {A} (x : A) n l : In x (skipn n l) -> In x l.
Proof.
  intros H. rewrite <- (firstn_skipn n l). apply in_or_app. right. exact H.
Qed.

Lemma in_firstn_in {A} (x : A) n l : In x (firstn n l) -> In x l.
Proof.
  intros H. rewrite <- (firstn_skipn n l). apply in_or_app. left. exact H.
Qed.

Lemma in_filter_symbols (f : string * float -> bool) s l :
  In s (map fst (List.filter f l)) -> In s (map fst l).
Proof.
  rewrite !in_map_iff. intros (x & Hx & Hin). exists x. split; [exact Hx|].
  apply filter_In in Hin. tauto.
Qed.

(** The first [k] and the last [k] entries of a list with at least [2k]
    entries are different entries. *)
Lemma slices_apart {A} (l : list A) k :
  2 * k <= List.length l ->
  exists middle, l = slice_to k l ++ middle ++ slice_last k l.
Proof.
  intros Hk. unfold slice_to, slice_last. destruct k as [|k].
  - exists []. reflexivity.
  - exists (firstn (List.length l - 2 * S k) (skipn (S k) l)).
    replace (List.length l - S k) with ((List.length l - 2 * S k) + S k) by lia.
    rewrite <- skipn_skipn, firstn_skipn, firstn_skipn. reflexivity.
Qed.

Lemma filter_defined_all v :
  Forall (fun x => isnan (snd x) = false) (List.filter defined v).
Proof.
  apply List.Forall_forall. intros x Hx. apply filter_In in Hx as [_ Hx].
  apply defined_isnan. exact Hx.
Qed.

(** C5 (as amended): when there are at least [2k] ranked entries, the top
    [k] and the bottom [k] are taken from two parts of the sequence that
    do not overlap; when moreover the symbols of the entries are pairwise
    different, no symbol is both among the top [k] and among the bottom
    [k]; and no entry of either has the score NaN. *)
Theorem top_bottom_disjoint (ranked : list (string * float)) k :
  2 * k <= List.length ranked ->
  (exists middle, ranked = slice_to k ranked ++ middle ++ slice_last k ranked) /\
  (NoDup (map fst ranked) ->
     forall s, In s (map fst (top_volatile k ranked)) ->
               In s (map fst (bottom_volatile k ranked)) -> False) /\
  Forall (fun x => isnan (snd x) = false) (top_volatile k ranked) /\
  Forall (fun x => isnan (snd x) = false) (bottom_volatile k ranked).
Proof.
  intros Hk. split; [apply slices_apart; exact Hk|].
  split; [|split; apply filter_defined_all].
  intros Hnd s Htop Hbot. unfold top_volatile, bottom_volatile in *.
  apply in_filter_symbols in Htop, Hbot.
  destruct k as [|k]; [destruct Htop|].
  destruct (slices_apart ranked (S k) Hk) as (middle & Hsplit).
  rewrite Hsplit in Hnd. rewrite !List.map_app in Hnd.
  apply NoDup_app in Hnd as (_ & Hdis & _).
  apply (Hdis s).
  - apply list_elem_of_In. exact Htop.
  - apply list_elem_of_In, in_or_app. right. exact Hbot.
Qed.

Lemma top_bottom_disjoint_witness :
  In "AUSDT" (map fst (top_volatile 1 [("AUSDT", Num 2); ("BUSDT", NaN); ("CUSDT", Num 1)])) /\
  ~ In "AUSDT" (map fst (bottom_volatile 1 [("AUSDT", Num 2); ("BUSDT", NaN); ("CUSDT", Num 1)])) /\
  Forall (fun x => isnan (snd x) = false)
    (bottom_volatile 1 [("AUSDT", Num 2); ("BUSDT", NaN); ("CUSDT", Num 1)]).
Proof.
  destruct (top_bottom_disjoint [("AUSDT", Num 2); ("BUSDT", NaN); ("CUSDT", Num 1)] 1)
    as (_ & Hdis & _ & Hbot).
  - simpl. lia.
  - split; [left; reflexivity|]. split; [|exact Hbot].
    intros Hin. apply (Hdis ltac:(apply (bool_decide_unpack _); vm_compute; reflexivity)
                         "AUSDT"); [left; reflexivity | exact Hin].
Defined.

(** C5 (as stated) fails: nothing in the code keeps a symbol from being
    ranked twice.  With the two entries of AUSDT below and [k = 1] there
    are [2k] entries, and AUSDT is the symbol of the top entry and of the
    bottom entry. *)
Lemma top_bottom_share_symbol :
  2 * 1 <= List.length [("AUSDT", Num 2); ("AUSDT", Num 1)] /\
  top_volatile 1 [("AUSDT", Num 2); ("AUSDT", Num 1)] = [("AUSDT", Num 2)] /\
  bottom_volatile 1 [("AUSDT", Num 2); ("AUSDT", Num 1)] = [("AUSDT", Num 1)] /\
  In "AUSDT" (map fst (top_volatile 1 [("AUSDT", Num 2); ("AUSDT", Num 1)])) /\
  In "AUSDT" (map fst (bottom_volatile 1 [("AUSDT", Num 2); ("AUSDT", Num 1)])).
Proof.
  split; [simpl; lia|]. split; [reflexivity|]. split; [reflexivity|].
  split; left; reflexivity.
Qed.

End TopBottomFacts.

(** ** The market selection *)

Section SelectionFacts.
Import Py Scanner.
Local Open Scope Q_scope.

Lemma Qlt_bool_asym a b :
  RateGate.Qlt_bool a b = true -> RateGate.Qlt_bool b a = false.
Proof. rewrite Qlt_bool_iff, Qlt_bool_false. apply Qlt_le_weak. Qed.

Lemma Qlt_bool_negtrans a b c :
  True ->
  RateGate.Qlt_bool a b = false -> RateGate.Qlt_bool b c = false ->
  RateGate.Qlt_bool a c = false.
Proof. intros _. rewrite !Qlt_bool_false. intros H1 H2. eapply Qle_trans; eauto. Qed.

(** Tickers tie when their volumes are the same number. *)
Lemma tie_volume v t :
  tie quoteVolume RateGate.Qlt_bool v t = true <-> quoteVolume t == v.
Proof.
  unfold tie. rewrite andb_true_iff, !negb_true_iff, !Qlt_bool_false.
  split; [intros [H1 H2]; apply Qle_antisym; assumption|].
  intros H. rewrite H. split; apply Qle_refl.
Qed.

Lemma usdt_pairs_suffix tickers :
  Forall (fun t => endswith (symbol t) "USDT" = true) (usdt_pairs tickers).
Proof.
  apply List.Forall_forall. intros t Ht. apply filter_In in Ht. tauto.
Qed.

Lemma sorted_tickers_perm tickers :
  Permutation (sorted_tickers tickers) (usdt_pairs tickers).
Proof. apply sorted_reverse_perm. Qed.

Lemma sorted_tickers_descending tickers :
  StronglySorted volume_ge (sorted_tickers tickers).
Proof.
  assert (H : StronglySorted (not_below quoteVolume RateGate.Qlt_bool)
                (sorted_tickers tickers)).
  { apply (sorted_reverse_descending quoteVolume RateGate.Qlt_bool Qlt_bool_asym
             (fun _ => True) Qlt_bool_negtrans).
    apply List.Forall_forall. intros; exact I. }
  induction H as [|x l Hl IH Hall]; constructor; [exact IH|].
  eapply List.Forall_impl; [|exact Hall]. intros y Hy.
  unfold not_below in Hy. apply Qlt_bool_false in Hy. exact Hy.
Qed.

Lemma StronglySorted_firstn {A} (R : A -> A -> Prop) n l :
  StronglySorted R l -> StronglySorted R (firstn n l).
Proof.
  intros H. revert n. induction H as [|x l Hl IH Hall]; intros [|n]; simpl;
    try constructor; [apply IH|].
  rewrite List.Forall_forall in *. intros y Hy. apply Hall.
  rewrite <- (firstn_skipn n l). apply in_or_app. left. exact Hy.
Qed.

(** The gate lets the call through when its 40 units fit. *)
Lemma get_top_liquid_coins_returns n tickers w :
  RateGate.lock_held w = false ->
  RateGate.fits (RateGate.after_reset_check w) 40 ->
  exists w', get_top_liquid_coins n tickers w = RateGate.Returned (top_coins n tickers) w'.
Proof.
  intros Hfree Hfit.
  destruct (check_rate_limit_fits w 40 Hfree Hfit) as (w' & Hrun & _).
  exists w'. unfold get_top_liquid_coins, RateGate.bind. rewrite Hrun. reflexivity.
Qed.

(** C8: what [get_top_liquid_coins(n)] returns has at most [n] symbols,
    each of them ends with USDT, and they are the symbols of the first
    entries of the USDT tickers put in descending order of volume, tickers
    of the same volume in the order in which the exchange listed them. *)
Theorem get_top_liquid_coins_postcondition n tickers w r w' :
  get_top_liquid_coins n tickers w = RateGate.Returned r w' ->
  (List.length r <= n)%nat /\
  Forall (fun s => endswith s "USDT" = true) r /\
  r = map symbol (slice_to n (sorted_tickers tickers)) /\
  StronglySorted volume_ge (slice_to n (sorted_tickers tickers)) /\
  Permutation (sorted_tickers tickers) (usdt_pairs tickers) /\
  forall v, List.filter (tie quoteVolume RateGate.Qlt_bool v) (sorted_tickers tickers)
            = List.filter (tie quoteVolume RateGate.Qlt_bool v) (usdt_pairs tickers).
Proof.
  intros Hrun. unfold get_top_liquid_coins, RateGate.bind in Hrun.
  destruct (RateGate.check_rate_limit 40 w) as [[] w1|w1]; [|discriminate].
  unfold RateGate.ret in Hrun. injection Hrun as <- _.
  unfold top_coins, slice_to. split; [|split; [|split; [|split; [|split]]]].
  - rewrite List.length_map, length_firstn. lia.
  - apply List.Forall_forall. intros s Hs. apply in_map_iff in Hs as (t & <- & Ht).
    apply in_firstn_in in Ht.
    apply (Permutation_in _ (sorted_tickers_perm tickers)) in Ht.
    pose proof (usdt_pairs_suffix tickers) as Hall.
    rewrite List.Forall_forall in Hall. apply Hall. exact Ht.
  - reflexivity.
  - apply StronglySorted_firstn, sorted_tickers_descending.
  - apply sorted_tickers_perm.
  - intros v.
    apply (sorted_reverse_stable quoteVolume RateGate.Qlt_bool (fun _ => True)
             Qlt_bool_negtrans v). exact I.
Qed.

Lemma get_top_liquid_coins_postcondition_witness :
  get_top_liquid_coins 2
    [mkTicker "ETHUSDT" 500; mkTicker "BTCEUR" 900; mkTicker "BTCUSDT" 800;
     mkTicker "XRPUSDT" 500; mkTicker "USDTTRY" 950]
    (RateGate.initial 0 [])
  = RateGate.Returned ["BTCUSDT"; "ETHUSDT"] (RateGate.mkWorld 40 0 false 0 []) /\
  Forall (fun s => endswith s "USDT" = true) ["BTCUSDT"; "ETHUSDT"].
Proof.
  assert (Hrun : get_top_liquid_coins 2
    [mkTicker "ETHUSDT" 500; mkTicker "BTCEUR" 900; mkTicker "BTCUSDT" 800;
     mkTicker "XRPUSDT" 500; mkTicker "USDTTRY" 950]
    (RateGate.initial 0 [])
    = RateGate.Returned ["BTCUSDT"; "ETHUSDT"] (RateGate.mkWorld 40 0 false 0 []))
    by (vm_compute; reflexivity).
  split; [exact Hrun|].
  apply (get_top_liquid_coins_postcondition _ _ _ _ _ Hrun).
Defined.

End SelectionFacts.

(** ** The portfolio report *)

Section PortfolioFacts.
Import Portfolio.
Local Open Scope Q_scope.

Lemma value_asset_row env t rows0 asset t' rows' :
  value_asset env (t, rows0) asset = Ok (t', rows') ->
  exists row, rows' = rows0 ++ [row] /\ row_of env asset row /\ t' == t + snd row.
Proof.
  unfold value_asset, bind, row_of. simpl.
  destruct (available asset) as [avail|] eqn:Ha; [|discriminate].
  destruct (inOrder asset) as [in_order|] eqn:Hi; [|discriminate].
  destruct (String.eqb (symbol asset) "EUR") eqn:Heur.
  - apply String.eqb_eq in Heur. intros [= <- <-].
    eexists. split; [reflexivity|]. split; [|simpl; reflexivity].
    exists avail, in_order. simpl. repeat split; auto; congruence.
  - apply String.eqb_neq in Heur.
    destruct (tickerPrice env (symbol asset ++ "-EUR")) as [e| |e|price] eqn:Hp;
      intros [= <- <-]; (eexists; split; [reflexivity|]); simpl;
      (split; [|Lqa.lra]); exists avail, in_order; simpl;
      repeat split; auto; try congruence; try (intros _ p Hp'; congruence);
      intros _ Hno; exfalso; eapply Hno; reflexivity.
Qed.

Lemma value_assets_rows env assets : forall t rows0 t' rows',
  value_assets env (t, rows0) assets = Ok (t', rows') ->
  exists rows, rows' = rows0 ++ rows /\
    Forall2 (row_of env) assets rows /\
    t' == t + Qsum (map snd rows).
Proof.
  induction assets as [|asset assets IH]; intros t rows0 t' rows' Hrun; simpl in Hrun.
  - injection Hrun as <- <-. exists []. rewrite app_nil_r.
    split; [reflexivity|]. split; [constructor|]. simpl. Lqa.lra.
  - unfold bind in Hrun.
    destruct (value_asset env (t, rows0) asset) as [[t1 rows1]|] eqn:Hone; [|discriminate].
    apply value_asset_row in Hone as (row & -> & Hrow & Ht1).
    apply IH in Hrun as (rows & -> & Hrows & Ht').
    exists (row :: rows). rewrite <- app_assoc. split; [reflexivity|].
    split; [constructor; assumption|].
    simpl. rewrite Ht', Ht1. ring.
Qed.

Lemma portfolio_no_error_key total rows limit :
  (<["portfolio_value_eur" := VFloat total]>
     (<["asset_values" := VRows rows]>
        (<["rate_limit_remaining" := VInt limit]> (∅ : gmap string value))))
    !! "error" = None.
Proof.
  rewrite !lookup_insert_ne by discriminate. apply lookup_empty.
Qed.

Lemma get_bitvavo_portfolio_try_keys env d :
  get_bitvavo_portfolio_try env = Ok d -> d !! "error" = None.
Proof.
  unfold get_bitvavo_portfolio_try, bind.
  destruct (not_ (BITVAVO_API_KEY env) || not_ (BITVAVO_API_SECRET env)); [discriminate|].
  destruct (balance env) as [assets|]; [|discriminate].
  destruct (value_assets env (0, []) assets) as [[total rows]|]; [|discriminate].
  destruct (getRemainingLimit env) as [limit|]; [|discriminate].
  intros [= <-]. apply portfolio_no_error_key.
Qed.

(** C9: whatever is raised in [get_bitvavo_portfolio] comes back as a
    dictionary with the key "error"; a portfolio that was built has no
    such key; and [main] sends nothing when there was an exception: every
    message it sends carries a dictionary without "error". *)
Theorem get_bitvavo_portfolio_never_raises env :
  (forall e, get_bitvavo_portfolio_try env = Raise e ->
     get_bitvavo_portfolio env = {[ "error" := VStr e ]} /\
     get_bitvavo_portfolio env !! "error" = Some (VStr e) /\
     main env = []) /\
  (forall d, get_bitvavo_portfolio_try env = Ok d ->
     get_bitvavo_portfolio env = d /\ d !! "error" = None) /\
  (forall chat_id d, In (Message chat_id d) (main env) ->
     d = get_bitvavo_portfolio env /\ d !! "error" = None /\
     get_bitvavo_portfolio_try env = Ok d).
Proof.
  split; [|split].
  - intros e He. unfold main, get_bitvavo_portfolio. rewrite He.
    split; [reflexivity|]. split; [apply lookup_singleton_eq|].
    unfold no_error. rewrite lookup_singleton_eq. reflexivity.
  - intros d Hd. unfold get_bitvavo_portfolio. rewrite Hd.
    split; [reflexivity|]. eapply get_bitvavo_portfolio_try_keys; eauto.
  - intros chat_id d Hin. unfold main, get_bitvavo_portfolio in *.
    destruct (get_bitvavo_portfolio_try env) as [d'|e] eqn:Htry.
    + assert (Hd : d = d').
      { destruct (no_error d'); [|destruct Hin].
        unfold send_to_telegram in Hin.
        destruct (not_ _ || not_ _); [destruct Hin|].
        destruct (TELEGRAM_CHAT_ID env); [|destruct Hin].
        destruct (send_message env); [|destruct Hin].
        destruct Hin as [Hin|[]]. congruence. }
      subst d'. split; [reflexivity|]. split; [|reflexivity].
      eapply get_bitvavo_portfolio_try_keys; eauto.
    + exfalso. unfold no_error in Hin. rewrite lookup_singleton_eq in Hin. destruct Hin.
Qed.

Lemma get_bitvavo_portfolio_never_raises_witness :
  main (mkEnv None (Some "secret") (Raise "unreachable") (fun _ => NoPrice) (Ok 1000%Z)
          (Some "token") (Some "chat") (Ok tt)) = [] /\
  get_bitvavo_portfolio
    (mkEnv None (Some "secret") (Raise "unreachable") (fun _ => NoPrice) (Ok 1000%Z)
       (Some "token") (Some "chat") (Ok tt)) !! "error"
  = Some (VStr "Bitvavo API key or secret not found in environment variables.").
Proof.
  destruct (get_bitvavo_portfolio_never_raises
    (mkEnv None (Some "secret") (Raise "unreachable") (fun _ => NoPrice) (Ok 1000%Z)
       (Some "token") (Some "chat") (Ok tt))) as (Hraise & _ & _).
  destruct (Hraise "Bitvavo API key or secret not found in environment variables.")
    as (_ & Hkey & Hmain); [reflexivity|].
  split; [exact Hmain | exact Hkey].
Defined.

(** C10: in the portfolio that is returned, the row of each asset gives
    [available + inOrder] as its amount, also for EUR; the value of EUR is
    [available] alone, the value of another asset is its amount times the
    price that was fetched (0 when there is none); and the value of the
    portfolio is the sum of these values. *)
Theorem eur_counts_available_only env assets d :
  balance env = Ok assets ->
  get_bitvavo_portfolio_try env = Ok d ->
  exists total rows,
    d !! "portfolio_value_eur" = Some (VFloat total) /\
    d !! "asset_values" = Some (VRows rows) /\
    Forall2 (row_of env) assets rows /\
    total == Qsum (map snd rows).
Proof.
  intros Hbal. unfold get_bitvavo_portfolio_try, bind. rewrite Hbal.
  destruct (not_ (BITVAVO_API_KEY env) || not_ (BITVAVO_API_SECRET env)); [discriminate|].
  destruct (value_assets env (0, []) assets) as [[total rows]|] eqn:Hrun; [|discriminate].
  destruct (getRemainingLimit env) as [limit|]; [|discriminate].
  intros [= <-]. exists total, rows.
  apply value_assets_rows in Hrun as (rows' & Hrows & Hall & Htotal).
  simpl in Hrows. subst rows'. simpl.
  split; [apply lookup_insert_eq|].
  split; [rewrite lookup_insert_ne by discriminate; apply lookup_insert_eq|].
  split; [exact Hall|]. rewrite Htotal. ring.
Qed.

Lemma eur_counts_available_only_witness :
  exists total rows,
    get_bitvavo_portfolio
      (mkEnv (Some "key") (Some "secret")
         (Ok [mkAsset "EUR" (Ok 100) (Ok 50); mkAsset "BTC" (Ok 1) (Ok 1)])
         (fun market => if String.eqb market "BTC-EUR" then Price 30000 else NoPrice)
         (Ok 1000%Z) (Some "token") (Some "chat") (Ok tt))
      !! "portfolio_value_eur" = Some (VFloat total) /\
    Forall2
      (row_of
         (mkEnv (Some "key") (Some "secret")
            (Ok [mkAsset "EUR" (Ok 100) (Ok 50); mkAsset "BTC" (Ok 1) (Ok 1)])
            (fun market => if String.eqb market "BTC-EUR" then Price 30000 else NoPrice)
            (Ok 1000%Z) (Some "token") (Some "chat") (Ok tt)))
      [mkAsset "EUR" (Ok 100) (Ok 50); mkAsset "BTC" (Ok 1) (Ok 1)] rows /\
    total == Qsum (map snd rows).
Proof.
  destruct (eur_counts_available_only
    (mkEnv (Some "key") (Some "secret")
       (Ok [mkAsset "EUR" (Ok 100) (Ok 50); mkAsset "BTC" (Ok 1) (Ok 1)])
       (fun market => if String.eqb market "BTC-EUR" then Price 30000 else NoPrice)
       (Ok 1000%Z) (Some "token") (Some "chat") (Ok tt))
    [mkAsset "EUR" (Ok 100) (Ok 50); mkAsset "BTC" (Ok 1) (Ok 1)]
    (get_bitvavo_portfolio
       (mkEnv (Some "key") (Some "secret")
          (Ok [mkAsset "EUR" (Ok 100) (Ok 50); mkAsset "BTC" (Ok 1) (Ok 1)])
          (fun market => if String.eqb market "BTC-EUR" then Price 30000 else NoPrice)
          (Ok 1000%Z) (Some "token") (Some "chat") (Ok tt))))
    as (total & rows & Htotal & _ & Hrows & Hsum).
  - reflexivity.
  - reflexivity.
  - exists total, rows. repeat split; assumption.
Defined.

(** The run of the witness in numbers: 100 euro free and 50 in orders, one
    bitcoin free and one in orders at 30000 euro.  The row of EUR says 150
    and counts 100; the portfolio is worth 60100. *)
Example value_assets_eur_and_btc :
  value_assets
    (mkEnv (Some "key") (Some "secret") (Ok [])
       (fun market => if String.eqb market "BTC-EUR" then Price 30000 else NoPrice)
       (Ok 1000%Z) (Some "token") (Some "chat") (Ok tt))
    (0, []) [mkAsset "EUR" (Ok 100) (Ok 50); mkAsset "BTC" (Ok 1) (Ok 1)]
  = Ok (60100, [("EUR", 150, 100); ("BTC", 2, 60000)]).
Proof. vm_compute. reflexivity. Qed.

End PortfolioFacts.

(* ===================================================================== *)
(** * Part III: further properties of the code                           *)
(* ===================================================================== *)

(** ** More on the rate gate *)

Section GateExtras.
Import RateGate.
Local Open Scope Q_scope.
Local Open Scope gate_scope.

Lemma after_reset_check_lock w :
  lock_held (after_reset_check w) = lock_held w.
Proof. unfold after_reset_check. destruct (Qle_bool _ _); reflexivity. Qed.

(** X1: a thread whose calls stay within what is left under the threshold
    is never held up: from a free lock and a counter that is not negative,
    calls with weights that are not negative and add up to no more than
    the threshold allows all return, whatever the clock does, and the
    counter ends between 0 and the old counter plus the weights. *)
Theorem gate_within_budget rws w :
  lock_held w = false ->
  (0 <= current_weight w)%Z ->
  Forall (fun rw => 0 <= rw)%Z rws ->
  inject_Z (current_weight w + fold_right Z.add 0%Z rws) <= WEIGHT_THRESHOLD ->
  exists w', check_rate_limits rws w = Returned tt w' /\
    lock_held w' = false /\
    (0 <= current_weight w' <= current_weight w + fold_right Z.add 0%Z rws)%Z.
Proof. apply check_rate_limits_within_budget. Qed.

Lemma gate_within_budget_witness :
  exists w', check_rate_limits [40; 1; 1; 1]%Z (mkWorld 1000 0 false 0 [10; 1; 70]) = Returned tt w' /\
    lock_held w' = false /\
    (0 <= current_weight w' <= 1000 + 43)%Z.
Proof.
  apply (gate_within_budget [40; 1; 1; 1]%Z (mkWorld 1000 0 false 0 [10; 1; 70])).
  - reflexivity.
  - simpl. lia.
  - repeat constructor; lia.
  - vm_compute. discriminate.
Defined.

(** X2: a call that returns has added its weight exactly once to the
    counter that the opening reset check left, has not moved the start of
    the window any further, and has released the lock; this holds for
    every clock, also one that runs backwards. *)
Theorem check_rate_limit_returned w rw w' :
  lock_held w = false ->
  check_rate_limit rw w = Returned tt w' ->
  lock_held w' = false /\
  current_weight w' = (current_weight (after_reset_check w) + rw)%Z /\
  last_reset_time w' = last_reset_time (after_reset_check w).
Proof.
  intros Hfree. unfold check_rate_limit, bind at 1.
  rewrite (reset_rate_limit_free w Hfree).
  pose proof (after_reset_check_lock w) as Hl. rewrite Hfree in Hl.
  revert Hl. generalize (after_reset_check w) as w0.
  intros [cw last held clk ds]; simpl. intros ->.
  unfold with_lock, bind, lock_acquire, get_current_weight; simpl.
  destruct (Qlt_bool WEIGHT_THRESHOLD (inject_Z (cw + rw))); simpl.
  - unfold time_time, get_last_reset_time, time_sleep, reset_rate_limit, bind; simpl.
    destruct ds as [|d2 ds]; simpl.
    + destruct (Qlt_bool 0 _); simpl.
      * unfold time_time; simpl. destruct (Qle_bool 60 _); simpl.
        -- unfold with_lock, bind, lock_acquire; simpl. discriminate.
        -- intros [= <-]. simpl. auto.
      * intros [= <-]. simpl. auto.
    + destruct (Qlt_bool 0 _); simpl.
      * unfold time_time; simpl. destruct ds as [|d3 ds]; simpl;
          (destruct (Qle_bool 60 _); simpl;
           [unfold with_lock, bind, lock_acquire; simpl; discriminate
           | intros [= <-]; simpl; auto]).
      * intros [= <-]. simpl. auto.
  - intros [= <-]. simpl. auto.
Qed.

Lemma check_rate_limit_returned_witness :
  check_rate_limit 1 (mkWorld 1080 0 false 0 [59; 1])
    = Returned tt (mkWorld 1081 0 false 60 []) /\
  lock_held (mkWorld 1081 0 false 60 []) = false.
Proof.
  assert (Hrun : check_rate_limit 1 (mkWorld 1080 0 false 0 [59; 1])
                 = Returned tt (mkWorld 1081 0 false 60 []))
    by (vm_compute; reflexivity).
  split; [exact Hrun|].
  apply (check_rate_limit_returned (mkWorld 1080 0 false 0 [59; 1]) 1
           (mkWorld 1081 0 false 60 []) eq_refl Hrun).
Defined.

(** X3: on a clock that does not run backwards, a call whose weight does
    not fit while the window is still open never returns: it sleeps to the
    end of the window inside [with lock:], and the reset that follows
    waits for the lock that the call holds.  The counter and the start of
    the window stay as they were. *)
Theorem check_rate_limit_deadlock w rw :
  lock_held w = false ->
  Forall (fun d => 0 <= d) (delays w) ->
  ~ fits (after_reset_check w) rw ->
  next_time (after_reset_check w) - last_reset_time (after_reset_check w) < 60 ->
  exists w', check_rate_limit rw w = Blocked w' /\
    current_weight w' = current_weight (after_reset_check w) /\
    last_reset_time w' = last_reset_time (after_reset_check w) /\
    lock_held w' = true.
Proof. apply check_rate_limit_over_threshold_blocks. Qed.

Lemma check_rate_limit_deadlock_witness :
  exists w', check_rate_limit 41 (mkWorld 1040 0 false 0 [5; 2; 3]) = Blocked w' /\
    current_weight w' = 1040%Z /\ lock_held w' = true.
Proof.
  destruct (check_rate_limit_deadlock (mkWorld 1040 0 false 0 [5; 2; 3]) 41)
    as (w' & Hrun & Hcw & _ & Hheld).
  - reflexivity.
  - repeat constructor; discriminate.
  - unfold fits. vm_compute. intros H. apply H. reflexivity.
  - vm_compute. reflexivity.
  - exists w'. repeat split; assumption.
Defined.

(** X4: a call whose weight does not fit, when the window turns out to be
    over at the reading of the clock that follows the test, returns at
    once: it does not sleep and does not reset, and the counter is left
    above the threshold. *)
Theorem check_rate_limit_expired_window w rw :
  lock_held w = false ->
  ~ fits (after_reset_check w) rw ->
  60 <= next_time (after_reset_check w) - last_reset_time (after_reset_check w) ->
  exists w', check_rate_limit rw w = Returned tt w' /\
    clock w' = next_time (after_reset_check w) /\
    current_weight w' = (current_weight (after_reset_check w) + rw)%Z /\
    WEIGHT_THRESHOLD < inject_Z (current_weight w').
Proof.
  intros Hfree Hover Hexp. unfold check_rate_limit, bind at 1.
  rewrite (reset_rate_limit_free w Hfree).
  pose proof (after_reset_check_lock w) as Hl. rewrite Hfree in Hl.
  revert Hover Hexp Hl. generalize (after_reset_check w) as w0.
  intros [cw last held clk ds]; unfold fits, next_time; simpl.
  intros Hover Hexp ->.
  assert (Hlt : WEIGHT_THRESHOLD < inject_Z (cw + rw)) by (apply Qnot_le_lt; exact Hover).
  pose proof Hlt as Hb. apply Qlt_bool_iff in Hb.
  unfold with_lock, bind, lock_acquire, get_current_weight; simpl.
  rewrite Hb. unfold time_time, get_last_reset_time, bind; simpl.
  destruct ds as [|d2 ds]; simpl in *.
  - assert (Hs : Qlt_bool 0 (60 - (clk - last)) = false) by (apply Qlt_bool_false; Lqa.lra).
    rewrite Hs. simpl. eexists. split; [reflexivity|]. simpl. auto.
  - assert (Hs : Qlt_bool 0 (60 - (clk + d2 - last)) = false)
      by (apply Qlt_bool_false; Lqa.lra).
    rewrite Hs. simpl. eexists. split; [reflexivity|]. simpl. auto.
Qed.

Lemma check_rate_limit_expired_window_witness :
  exists w', check_rate_limit 40 (mkWorld 1050 0 false 0 [30; 45]) = Returned tt w' /\
    current_weight w' = 1090%Z /\
    WEIGHT_THRESHOLD < inject_Z (current_weight w').
Proof.
  destruct (check_rate_limit_expired_window (mkWorld 1050 0 false 0 [30; 45]) 40)
    as (w' & Hrun & _ & Hcw & Hover).
  - reflexivity.
  - unfold fits. vm_compute. intros H. apply H. reflexivity.
  - vm_compute. discriminate.
  - exists w'. repeat split; assumption.
Defined.

(** X5: while the lock is held, by a call that is stuck, no call gets
    through the gate: it waits for the lock at the reset or at its own
    [with lock:]. *)
Theorem check_rate_limit_lock_held w rw :
  lock_held w = true ->
  exists w', check_rate_limit rw w = Blocked w'.
Proof.
  intros Hheld. unfold check_rate_limit, bind at 1.
  unfold reset_rate_limit, bind, get_last_reset_time.
  destruct (time_time_next w) as (w1 & -> & _ & _ & Hh & _ & _).
  rewrite Hheld in Hh.
  destruct (Qle_bool 60 _).
  - unfold with_lock, bind, lock_acquire. rewrite Hh. eauto.
  - unfold ret, with_lock, bind, lock_acquire. rewrite Hh. eauto.
Qed.

Lemma check_rate_limit_lock_held_witness :
  exists w', check_rate_limit 1 (mkWorld 1080 0 true 60 []) = Blocked w'.
Proof. apply (check_rate_limit_lock_held (mkWorld 1080 0 true 60 []) 1). reflexivity. Defined.

End GateExtras.

(** ** More on the market selection *)

Section SelectionExtras.
Import Py Scanner.

Lemma NoDup_map_filter {A B} (f : A -> B) (p : A -> bool) l :
  NoDup (map f l) -> NoDup (map f (List.filter p l)).
Proof.
  induction l as [|x l IH]; simpl; [auto|].
  rewrite NoDup_cons. intros [Hx Hl]. destruct (p x); [|auto].
  simpl. apply NoDup_cons. split; [|auto].
  intros Hin. apply Hx. apply list_elem_of_In. apply list_elem_of_In in Hin.
  apply in_map_iff in Hin as (y & Hy & Hin). apply filter_In in Hin as [Hin _].
  apply in_map_iff. eauto.
Qed.

Lemma NoDup_map_firstn {A B} (f : A -> B) n l :
  NoDup (map f l) -> NoDup (map f (firstn n l)).
Proof.
  revert n. induction l as [|x l IH]; intros [|n]; simpl; auto using NoDup_nil_2.
  rewrite !NoDup_cons. intros [Hx Hl]. split; [|auto].
  intros Hin. apply Hx. apply list_elem_of_In. apply list_elem_of_In in Hin.
  apply in_map_iff in Hin as (y & Hy & Hin). apply in_firstn_in in Hin.
  apply in_map_iff. eauto.
Qed.

Lemma top_coins_NoDup n tickers :
  NoDup (map symbol tickers) -> NoDup (top_coins n tickers).
Proof.
  intros Hnd. unfold top_coins, slice_to. apply NoDup_map_firstn.
  apply NoDup_ListNoDup.
  eapply Permutation_NoDup;
    [apply Permutation_map; symmetry; apply sorted_tickers_perm|].
  apply NoDup_ListNoDup. unfold usdt_pairs. apply NoDup_map_filter. exact Hnd.
Qed.

Lemma substring_all s : substring 0 (String.length s) s = s.
Proof. induction s as [|c s IH]; simpl; [reflexivity|]. rewrite IH. reflexivity. Qed.

Lemma substring_split s : forall k,
  k <= String.length s ->
  (substring 0 k s ++ substring k (String.length s - k) s)%string = s.
Proof.
  induction s as [|c s IH]; intros [|k] Hk; simpl in *; try reflexivity; try lia.
  - rewrite substring_all. reflexivity.
  - change (String c (substring 0 k s ++ substring k (String.length s - k) s)%string
            = String c s).
    f_equal. apply IH. lia.
Qed.

(** A string that [endswith] accepts is a string followed by the suffix. *)
Lemma endswith_suffix s suffix :
  endswith s suffix = true -> exists base, s = (base ++ suffix)%string.
Proof.
  unfold endswith. intros H. apply andb_prop in H as [Hle Heq].
  apply Nat.leb_le in Hle. apply String.eqb_eq in Heq.
  exists (substring 0 (String.length s - String.length suffix) s).
  pose proof (substring_split s (String.length s - String.length suffix)) as Hs.
  replace (String.length s - (String.length s - String.length suffix))
    with (String.length suffix) in Hs by lia.
  rewrite Heq in Hs. symmetry. apply Hs. lia.
Qed.

(** X6: [get_top_liquid_coins(n)] picks as many symbols as there are USDT
    tickers, up to [n]: none when the exchange lists none; and every
    symbol it picks is that of a ticker the exchange sent and is some base
    followed by USDT. *)
Theorem top_coins_count n tickers :
  List.length (top_coins n tickers) = Nat.min n (List.length (usdt_pairs tickers)) /\
  forall s, In s (top_coins n tickers) ->
    In s (map symbol tickers) /\ exists base, s = (base ++ "USDT")%string.
Proof.
  unfold top_coins, slice_to. split.
  - rewrite List.length_map, length_firstn.
    unfold sorted_tickers. rewrite sorted_reverse_length. reflexivity.
  - intros s Hs. apply in_map_iff in Hs as (t & <- & Ht).
    apply in_firstn_in in Ht.
    apply (Permutation_in _ (sorted_tickers_perm tickers)) in Ht.
    unfold usdt_pairs in Ht. apply filter_In in Ht as [Hin Hsuf].
    split; [apply in_map; exact Hin|]. apply endswith_suffix. exact Hsuf.
Qed.

(** X7: when the exchange lists every symbol once, no symbol is picked
    twice. *)
Theorem top_coins_distinct n tickers :
  NoDup (map symbol tickers) -> NoDup (top_coins n tickers).
Proof. apply top_coins_NoDup. Qed.

Lemma top_coins_distinct_witness :
  NoDup (top_coins 2 [mkTicker "ETHUSDT" 500; mkTicker "BTCEUR" 900;
                      mkTicker "BTCUSDT" 800; mkTicker "XRPUSDT" 500]).
Proof.
  apply (top_coins_distinct 2 [mkTicker "ETHUSDT" 500; mkTicker "BTCEUR" 900;
                               mkTicker "BTCUSDT" 800; mkTicker "XRPUSDT" 500]).
  apply (bool_decide_unpack _). vm_compute. reflexivity.
Defined.

End SelectionExtras.

(** ** More on the parallel fetch *)

Section FetchExtras.
Import Py Scanner.

Lemma collect_pending futures i :
  futures !! i = Some None -> collect futures = None.
Proof.
  revert i. induction futures as [|f fs IH]; intros [|i] Hi; simpl in *; try discriminate.
  - injection Hi as ->. reflexivity.
  - rewrite (IH i Hi). destruct f; reflexivity.
Qed.

Lemma executor_run_complete tasks c1 c2 :
  (forall i, i < List.length tasks -> i ∈ c1) ->
  (forall i, i < List.length tasks -> i ∈ c2) ->
  executor_run tasks c1 = executor_run tasks c2.
Proof.
  intros H1 H2. apply list_eq. intros i.
  destruct (tasks !! i) as [[s a]|] eqn:Hi.
  - rewrite !(executor_run_lookup _ _ _ _ _ Hi).
    rewrite !bool_decide_eq_true_2; [reflexivity| |];
      [apply H2 | apply H1]; eapply lookup_lt_Some; eauto.
  - rewrite !lookup_ge_None_2; [reflexivity| |];
      rewrite executor_run_length; apply lookup_ge_None; exact Hi.
Qed.

(** The results of a fetch in which every task is finished and none
    hangs. *)
Lemma fetch_all_complete tasks completion :
  (forall i, i < List.length tasks -> i ∈ completion) ->
  Forall (fun t => snd t <> Hangs) tasks ->
  fetch_all tasks completion
  = Some (map (fun t => (fst t, match snd t with Fetched df => Some df | _ => None end))
              tasks).
Proof.
  intros Hall Hno.
  set (result := fun t : string * attempt =>
         (fst t, match snd t with Fetched df => Some df | _ => None end)).
  assert (Hrun : executor_run tasks completion = map Some (map result tasks)).
  { apply list_eq. intros i.
    change (map Some (map result tasks)) with (Some <$> (result <$> tasks)).
    rewrite !list_lookup_fmap.
    destruct (tasks !! i) as [[s a]|] eqn:Hi.
    - rewrite (executor_run_lookup _ _ _ _ _ Hi).
      rewrite bool_decide_eq_true_2 by (apply Hall; eapply lookup_lt_Some; eauto).
      rewrite List.Forall_forall in Hno.
      rewrite fetch_candlestick_data_returns
        by (apply (Hno (s, a)); apply list_elem_of_In; eapply list_elem_of_lookup_2; eauto).
      reflexivity.
    - rewrite lookup_ge_None_2
        by (rewrite executor_run_length; apply lookup_ge_None; exact Hi).
      reflexivity. }
  unfold fetch_all. rewrite Hrun. apply collect_done.
Qed.

(** X8: the collection of the results comes to an end only when every
    task has: a task that the pool has not finished, or whose fetch hangs
    in the gate, keeps [main] waiting for its future for ever, with no
    result for any symbol. *)
Theorem fetch_all_waits tasks completion i s a :
  tasks !! i = Some (s, a) ->
  i ∉ completion \/ a = Hangs ->
  fetch_all tasks completion = None.
Proof.
  intros Hi Hwhy. unfold fetch_all. apply (collect_pending _ i).
  rewrite (executor_run_lookup _ _ _ _ _ Hi).
  destruct Hwhy as [Hnot | ->].
  - rewrite bool_decide_eq_false_2 by exact Hnot. reflexivity.
  - destruct (bool_decide _); reflexivity.
Qed.

Lemma fetch_all_waits_witness :
  fetch_all [("BTCUSDT", Fetched []); ("ETHUSDT", Hangs); ("XRPUSDT", Raised "APIError")]
            [2; 0; 1] = None.
Proof.
  apply (fetch_all_waits _ [2; 0; 1] 1 "ETHUSDT" Hangs).
  - reflexivity.
  - right. reflexivity.
Defined.

(** X9: the order in which the pool finishes the tasks does not show in
    what is collected: two runs that both finish every task collect the
    same, also when a task is finished more than once in the list. *)
Theorem fetch_all_order_irrelevant tasks c1 c2 :
  (forall i, i < List.length tasks -> i ∈ c1) ->
  (forall i, i < List.length tasks -> i ∈ c2) ->
  fetch_all tasks c1 = fetch_all tasks c2.
Proof.
  intros H1 H2. unfold fetch_all. rewrite (executor_run_complete tasks c1 c2 H1 H2).
  reflexivity.
Qed.

Lemma fetch_all_order_irrelevant_witness :
  fetch_all [("BTCUSDT", Fetched []); ("ETHUSDT", Raised "APIError")] [1; 0]
  = fetch_all [("BTCUSDT", Fetched []); ("ETHUSDT", Raised "APIError")] [0; 1; 0].
Proof.
  apply (fetch_all_order_irrelevant
           [("BTCUSDT", Fetched []); ("ETHUSDT", Raised "APIError")] [1; 0] [0; 1; 0]).
  - intros i Hi. simpl in Hi. destruct i as [|[|i]]; [| |lia]; repeat constructor.
  - intros i Hi. simpl in Hi. destruct i as [|[|i]]; [| |lia]; repeat constructor.
Defined.

End FetchExtras.

(** ** More on the volatility score *)

Section ScoreExtras.
Import Py Scanner.
Local Open Scope R_scope.

Lemma spec_log_returns_length cs :
  List.length (spec_log_returns cs) = (List.length cs - 1)%nat.
Proof. unfold spec_log_returns. rewrite List.length_map, length_seq. reflexivity. Qed.

Lemma calculate_volatility_spec df :
  calculate_volatility (Some df)
  = float_mul (stddev (spec_log_returns (map close df))) (Num (sqrt 1440)).
Proof.
  unfold calculate_volatility, std. rewrite log_return_dropna. destruct df; reflexivity.
Qed.

(** X10: a frame with fewer than three rows has no score: with no row the
    function returns NaN at once, and one or two rows give at most one log
    return, of which the standard deviation is NaN. *)
Theorem calculate_volatility_short df :
  (List.length df < 3)%nat -> calculate_volatility (Some df) = NaN.
Proof.
  intros Hlen. rewrite calculate_volatility_spec. unfold stddev.
  rewrite spec_log_returns_length, List.length_map.
  destruct (Nat.ltb_spec (List.length df - 1) 2); [reflexivity | lia].
Qed.

Lemma calculate_volatility_short_witness :
  calculate_volatility (Some [mkKline 0 100; mkKline 60000 110]) = NaN.
Proof.
  apply (calculate_volatility_short [mkKline 0 100; mkKline 60000 110]). simpl. lia.
Defined.

(** X11: a frame with three rows or more and positive prices (there the
    real numbers stand for the floats) has a score, and the score is not
    negative. *)
Theorem calculate_volatility_defined df :
  (3 <= List.length df)%nat ->
  Forall (fun k => 0 < close k) df ->
  exists x, calculate_volatility (Some df) = Num x /\ 0 <= x.
Proof.
  intros Hlen _. rewrite calculate_volatility_spec. unfold stddev.
  rewrite spec_log_returns_length, List.length_map.
  destruct (Nat.ltb_spec (List.length df - 1) 2); [lia|].
  eexists. split; [reflexivity|].
  apply Rmult_le_pos; apply sqrt_pos.
Qed.

Lemma calculate_volatility_defined_witness :
  exists x, calculate_volatility
              (Some [mkKline 0 100; mkKline 60000 110; mkKline 120000 105]) = Num x /\
            0 <= x.
Proof.
  apply (calculate_volatility_defined
           [mkKline 0 100; mkKline 60000 110; mkKline 120000 105]).
  - simpl. lia.
  - repeat constructor; simpl; lra.
Defined.

Lemma Rsum_zeros xs : Forall (fun x => x = 0) xs -> Rsum xs = 0.
Proof.
  induction 1 as [|x xs Hx _ IH]; simpl; [reflexivity|]. rewrite Hx, IH. lra.
Qed.

Lemma stddev_zeros xs :
  (2 <= List.length xs)%nat -> Forall (fun x => x = 0) xs -> stddev xs = Num 0.
Proof.
  intros Hlen Hz. unfold stddev.
  destruct (Nat.ltb_spec (List.length xs) 2); [lia|].
  f_equal.
  assert (Hmean : mean xs = 0).
  { unfold mean. rewrite (Rsum_zeros xs Hz). unfold Rdiv. apply Rmult_0_l. }
  rewrite Hmean.
  rewrite Rsum_zeros.
  - unfold Rdiv. rewrite Rmult_0_l. apply sqrt_0.
  - apply List.Forall_forall. intros y Hy. apply in_map_iff in Hy as (x & <- & Hx).
    rewrite List.Forall_forall in Hz. rewrite (Hz x Hx). lra.
Qed.

(** X12: a price that does not move has the score 0: for a frame of three
    rows or more that all close at the same positive price, every log
    return is 0 and so is their standard deviation. *)
Theorem calculate_volatility_constant df c :
  (3 <= List.length df)%nat ->
  0 < c ->
  Forall (fun k => close k = c) df ->
  calculate_volatility (Some df) = Num 0.
Proof.
  intros Hlen Hc Hall. rewrite calculate_volatility_spec.
  rewrite stddev_zeros.
  - simpl. f_equal. apply Rmult_0_l.
  - rewrite spec_log_returns_length, List.length_map. lia.
  - unfold spec_log_returns. apply List.Forall_forall. intros x Hx.
    apply in_map_iff in Hx as (i & <- & Hi). apply in_seq in Hi.
    rewrite List.length_map in Hi.
    assert (Hnth : forall j, (j < List.length df)%nat -> nth j (map close df) 0 = c).
    { intros j Hj. rewrite List.Forall_forall in Hall.
      rewrite <- (Hall (nth j df (mkKline 0 0))) by (apply nth_In; exact Hj).
      change 0 with (close (mkKline 0 0)) at 1. apply map_nth. }
    rewrite !Hnth by lia.
    unfold Rdiv. rewrite Rinv_r by lra. apply ln_1.
Qed.

Lemma calculate_volatility_constant_witness :
  calculate_volatility (Some [mkKline 0 50; mkKline 60000 50; mkKline 120000 50]) = Num 0.
Proof.
  apply (calculate_volatility_constant
           [mkKline 0 50; mkKline 60000 50; mkKline 120000 50] 50).
  - simpl. lia.
  - lra.
  - repeat constructor.
Defined.




End ScoreExtras.

(** ** More on the ranking *)

Section RankExtras.
Import Py Scanner.

(** X14: with ten entries or fewer, the most volatile and the least
    volatile are the same list: both are all the entries with a defined
    score, in their order. *)
Theorem top_10_bottom_10_small v :
  List.length v <= 10 ->
  top_10_volatile v = List.filter defined v /\
  bottom_10_volatile v = List.filter defined v.
Proof.
  intros Hlen. unfold top_10_volatile, bottom_10_volatile, top_volatile, bottom_volatile,
    slice_to, slice_last.
  rewrite firstn_all2 by exact Hlen.
  replace (List.length v - 10) with 0 by lia. split; reflexivity.
Qed.

Lemma top_10_bottom_10_small_witness :
  top_10_volatile [("AUSDT", Num 2); ("BUSDT", NaN); ("CUSDT", Num 1)]
  = bottom_10_volatile [("AUSDT", Num 2); ("BUSDT", NaN); ("CUSDT", Num 1)].
Proof.
  destruct (top_10_bottom_10_small [("AUSDT", Num 2); ("BUSDT", NaN); ("CUSDT", Num 1)])
    as [Htop Hbot].
  - simpl. lia.
  - rewrite Htop, Hbot. reflexivity.
Defined.

Lemma StronglySorted_split {A} (R : A -> A -> Prop) k l a b :
  StronglySorted R l -> In a (firstn k l) -> In b (skipn k l) -> R a b.
Proof.
  intros Hs. revert k. induction Hs as [|x l Hl IH Hall]; intros [|k] Ha Hb; simpl in *;
    try contradiction.
  destruct Ha as [<- | Ha].
  - rewrite List.Forall_forall in Hall. apply Hall. eapply in_skipn_in; eauto.
  - eapply IH; eauto.
Qed.

(** X15: when every score that is ranked is defined, the first [k] of the
    ranking are the most volatile: the score of each of them is at least
    the score of every entry that comes after the first [k]. *)
Theorem top_volatile_highest v k a b :
  Forall (fun x => defined x = true) v ->
  In a (top_volatile k (rank v)) ->
  In b (skipn k (rank v)) ->
  score_ge a b.
Proof.
  intros Hdef Ha Hb. unfold top_volatile, slice_to in Ha.
  apply filter_In in Ha as [Ha _].
  assert (Hdef' : Forall (fun x => defined x = true) (rank v)).
  { eapply Permutation_Forall; [symmetry; apply rank_perm | exact Hdef]. }
  assert (Hs : StronglySorted score_ge (rank v)).
  { apply not_below_score_ge; [exact Hdef'|].
    apply (sorted_reverse_descending snd float_lt float_lt_asym
             (fun k => isnan k = false) float_lt_negtrans).
    eapply List.Forall_impl; [|exact Hdef]. intros x. apply defined_isnan. }
  eapply StronglySorted_split; eauto.
Qed.

Lemma top_volatile_highest_witness :
  score_ge ("BUSDT", Num 3) ("AUSDT", Num 3).
Proof.
  assert (Hr : rank [("BUSDT", Num 3); ("AUSDT", Num 3)]
               = [("BUSDT", Num 3); ("AUSDT", Num 3)]).
  { unfold rank, sorted_reverse. simpl.
    destruct (Rlt_bool 3 3) eqn:E; [apply Rlt_bool_true in E; lra | reflexivity]. }
  apply (top_volatile_highest [("BUSDT", Num 3); ("AUSDT", Num 3)] 1).
  - repeat constructor.
  - rewrite Hr. left. reflexivity.
  - rewrite Hr. left. reflexivity.
Defined.

End RankExtras.

(** ** The sheet, the plots and the run of [main] *)

Section ReportExtras.
Import Py Scanner Report.
Import Portfolio(result, Ok, Raise).

Lemma existsb_eqb_In s l : existsb (String.eqb s) l = true <-> In s l.
Proof.
  rewrite existsb_exists. split.
  - intros (x & Hin & Heq). apply String.eqb_eq in Heq. subst. exact Hin.
  - intros Hin. exists s. split; [exact Hin | apply String.eqb_refl].
Qed.

Lemma volatilities_from_present s results :
  In s (map fst (volatilities results)) ->
  exists d, In (s, Some d) results.
Proof.
  rewrite volatilities_symbols. intros Hin.
  apply in_map_iff in Hin as ([s' [d|]] & Hs & Hin); simpl in Hs; subst;
    apply filter_In in Hin as [Hin Hp]; [eauto | discriminate].
Qed.

Lemma NoDup_map_fst_eq {B} (l : list (string * B)) s x y :
  NoDup (map fst l) -> In (s, x) l -> In (s, y) l -> x = y.
Proof.
  induction l as [|[s' z] l IH]; simpl; [contradiction|].
  rewrite NoDup_cons. intros [Hs Hl] [Hx|Hx] [Hy|Hy].
  - congruence.
  - injection Hx as -> ->. exfalso. apply Hs. apply list_elem_of_In.
    apply in_map_iff. exists (s, y). split; [reflexivity | exact Hy].
  - injection Hy as -> ->. exfalso. apply Hs. apply list_elem_of_In.
    apply in_map_iff. exists (s, x). split; [reflexivity | exact Hx].
  - eauto.
Qed.

Lemma chosen_present results picked :
  NoDup (map fst results) ->
  (forall s, In s (map fst picked) -> In s (map fst (volatilities results))) ->
  Forall (fun r => present r = true) (chosen results picked).
Proof.
  intros Hnd Hsub. apply List.Forall_forall. intros [s df] Hin.
  unfold chosen in Hin. apply filter_In in Hin as [Hin Hpick]. simpl in Hpick.
  apply existsb_eqb_In in Hpick. apply Hsub in Hpick.
  apply volatilities_from_present in Hpick as (d & Hd).
  rewrite (NoDup_map_fst_eq results s df (Some d) Hnd Hin Hd). reflexivity.
Qed.

Lemma plot_lines_present symbols :
  Forall (fun r => present r = true) symbols ->
  exists drawn, plot_lines symbols = Ok drawn /\ map fst drawn = map fst symbols.
Proof.
  induction 1 as [|[s [df|]] symbols Hp _ (drawn & Hrun & Hsym)]; simpl.
  - exists []. split; reflexivity.
  - rewrite Hrun. exists ((s, df) :: drawn). simpl. rewrite Hsym. split; reflexivity.
  - discriminate.
Qed.

Lemma top_volatile_symbols k v s :
  In s (map fst (top_volatile k v)) -> In s (map fst v).
Proof.
  intros Hin. unfold top_volatile, slice_to in Hin.
  apply in_filter_symbols in Hin. apply in_map_iff in Hin as (x & <- & Hx).
  apply in_map. eapply in_firstn_in; eauto.
Qed.

Lemma bottom_volatile_symbols k v s :
  In s (map fst (bottom_volatile k v)) -> In s (map fst v).
Proof.
  intros Hin. unfold bottom_volatile, slice_last in Hin.
  apply in_filter_symbols in Hin. apply in_map_iff in Hin as (x & <- & Hx).
  apply in_map. destruct k; [exact Hx | eapply in_skipn_in; eauto].
Qed.

Lemma rank_symbols v s : In s (map fst (rank v)) -> In s (map fst v).
Proof.
  apply Permutation_in. apply Permutation_map. apply rank_perm.
Qed.

(** X17: when the results have pairwise different symbols, the frames
    handed to the plot of the most volatile coins are there, one for each
    of the symbols picked; the plot does not raise, and draws one line for
    each of them, in the order of the results. *)
Theorem top_10_plot_succeeds results title filename :
  NoDup (map fst results) ->
  Forall (fun r => present r = true)
    (chosen results (top_10_volatile (rank (volatilities results)))) /\
  Permutation
    (map fst (chosen results (top_10_volatile (rank (volatilities results)))))
    (map fst (top_10_volatile (rank (volatilities results)))) /\
  exists fig,
    plot_price_courses (chosen results (top_10_volatile (rank (volatilities results))))
      title filename = Ok fig /\
    map fst (lines fig)
    = map fst (chosen results (top_10_volatile (rank (volatilities results)))).
Proof.
  intros Hnd.
  set (top := top_10_volatile (rank (volatilities results))).
  assert (Hsub : forall s, In s (map fst top) -> In s (map fst (volatilities results))).
  { intros s Hs. apply rank_symbols. eapply top_volatile_symbols. exact Hs. }
  pose proof (chosen_present results top Hnd Hsub) as Hpres.
  split; [exact Hpres|]. split.
  - apply NoDup_Permutation.
    + unfold chosen. apply NoDup_map_filter. exact Hnd.
    + unfold top, top_10_volatile, top_volatile, slice_to.
      apply NoDup_map_filter, NoDup_map_firstn, rank_symbols_distinct. exact Hnd.
    + intros s. rewrite !list_elem_of_In. unfold chosen. split.
      * intros Hin. apply in_map_iff in Hin as (r & <- & Hr).
        apply filter_In in Hr as [_ Hr]. apply existsb_eqb_In in Hr. exact Hr.
      * intros Hin. pose proof (Hsub s Hin) as Hv.
        rewrite volatilities_symbols in Hv.
        apply in_map_iff in Hv as (r & <- & Hr). apply filter_In in Hr as [Hr _].
        apply in_map. apply filter_In. split; [exact Hr|].
        apply existsb_eqb_In. exact Hin.
  - destruct (plot_lines_present _ Hpres) as (drawn & Hrun & Hsym).
    unfold plot_price_courses. rewrite Hrun. eexists. split; [reflexivity|].
    simpl. exact Hsym.
Qed.

Lemma top_10_plot_succeeds_witness :
  exists fig,
    plot_price_courses
      (chosen [("AUSDT", Some [mkKline 0 50; mkKline 60000 50; mkKline 120000 50]);
               ("BUSDT", None)]
         (top_10_volatile (rank (volatilities
            [("AUSDT", Some [mkKline 0 50; mkKline 60000 50; mkKline 120000 50]);
             ("BUSDT", None)]))))
      "Top 10 Most Volatile Coins" "top_10_volatile" = Ok fig.
Proof.
  destruct (top_10_plot_succeeds
    [("AUSDT", Some [mkKline 0 50; mkKline 60000 50; mkKline 120000 50]);
     ("BUSDT", None)] "Top 10 Most Volatile Coins" "top_10_volatile")
    as (_ & _ & fig & Hfig & _).
  - apply (bool_decide_unpack _). vm_compute. reflexivity.
  - exists fig. exact Hfig.
Defined.

Lemma filter_defined_none v :
  Forall (fun x => defined x = false) v -> List.filter defined v = [].
Proof.
  induction 1 as [|x v Hx _ IH]; simpl; [reflexivity|]. rewrite Hx. exact IH.
Qed.

(** X18: a run in which no symbol gets a defined score, because every
    fetch failed or no frame has three rows, ends without a trace: the
    worksheet is not cleared and no figure is saved. *)
Theorem report_nothing_to_report api timestamp results out :
  Forall (fun x => defined x = false) (volatilities results) ->
  report api timestamp results out = (Ok tt, out).
Proof.
  intros Hnone.
  assert (Hrank : Forall (fun x => defined x = false) (rank (volatilities results))).
  { eapply Permutation_Forall; [symmetry; apply rank_perm | exact Hnone]. }
  assert (Htop : top_10_volatile (rank (volatilities results)) = []).
  { unfold top_10_volatile, top_volatile, slice_to. apply filter_defined_none.
    apply List.Forall_forall. intros x Hx. rewrite List.Forall_forall in Hrank.
    apply Hrank. eapply in_firstn_in; eauto. }
  assert (Hbot : bottom_10_volatile (rank (volatilities results)) = []).
  { unfold bottom_10_volatile, bottom_volatile, slice_last. apply filter_defined_none.
    apply List.Forall_forall. intros x Hx. rewrite List.Forall_forall in Hrank.
    apply Hrank. eapply in_skipn_in; eauto. }
  unfold report. rewrite Htop, Hbot. simpl. destruct out; reflexivity.
Qed.

Lemma report_nothing_to_report_witness :
  report (mkSheets (Ok tt) (Ok tt) (Ok tt) (Ok tt) (Ok tt)) "2025-01-01 00:00:00"
    [("AUSDT", None); ("BUSDT", Some [mkKline 0 100; mkKline 60000 110])]
    (mkOutside [[CStr "old"]] [])
  = (Ok tt, mkOutside [[CStr "old"]] []).
Proof.
  apply (report_nothing_to_report
           (mkSheets (Ok tt) (Ok tt) (Ok tt) (Ok tt) (Ok tt)) "2025-01-01 00:00:00"
           [("AUSDT", None); ("BUSDT", Some [mkKline 0 100; mkKline 60000 110])]
           (mkOutside [[CStr "old"]] [])).
  repeat constructor.
Defined.

End ReportExtras.

Section MainExtras.
Import Py Scanner Report.
Import Portfolio(result, Ok, Raise).

Lemma plot_price_courses_present symbols title filename :
  Forall (fun r => present r = true) symbols ->
  exists fig, plot_price_courses symbols title filename = Ok fig.
Proof.
  intros Hp. destruct (plot_lines_present symbols Hp) as (drawn & Hrun & _).
  unfold plot_price_courses. rewrite Hrun. eauto.
Qed.

(** With a spreadsheet service that works and results with pairwise
    different symbols, the report goes through. *)
Lemma report_succeeds timestamp results out :
  NoDup (map fst results) ->
  exists out',
    report (mkSheets (Ok tt) (Ok tt) (Ok tt) (Ok tt) (Ok tt)) timestamp results out
    = (Ok tt, out') /\
    List.length (figures out') <= List.length (figures out) + 2.
Proof.
  intros Hnd. unfold report.
  set (top := top_10_volatile (rank (volatilities results))).
  set (bottom := bottom_10_volatile (rank (volatilities results))).
  assert (Htop : exists fig, plot_price_courses (chosen results top)
            "Top 10 Most Volatile Coins" "top_10_volatile" = Ok fig).
  { apply plot_price_courses_present, chosen_present; [exact Hnd|].
    intros s Hs. apply rank_symbols. eapply top_volatile_symbols. exact Hs. }
  assert (Hbot : exists fig, plot_price_courses (chosen results bottom)
            "Top 10 Least Volatile Coins" "bottom_10_volatile" = Ok fig).
  { apply plot_price_courses_present, chosen_present; [exact Hnd|].
    intros s Hs. apply rank_symbols. eapply bottom_volatile_symbols. exact Hs. }
  destruct Htop as (fig1 & ->). destruct Hbot as (fig2 & ->).
  destruct (nonempty top), (nonempty bottom); simpl;
    (eexists; split; [reflexivity|]); simpl; rewrite ?length_app; simpl; lia.
Qed.

(** X19: when the exchange lists every symbol once, every fetch task is
    finished and none hangs, and the spreadsheet service works, a run of
    [main] from the freshly imported module comes to its end without an
    exception, whatever the fetches returned or raised and whatever the
    clock did; it saves at most two figures. *)
Theorem main_completes tickers attempts completion timestamp out t0 ds :
  NoDup (map symbol tickers) ->
  (forall s, attempts s <> Hangs) ->
  (forall i, i < 100 -> i ∈ completion) ->
  exists out',
    main tickers attempts completion (mkSheets (Ok tt) (Ok tt) (Ok tt) (Ok tt) (Ok tt))
      timestamp out (RateGate.initial t0 ds)
    = Some (Ok tt, out') /\
    List.length (figures out') <= List.length (figures out) + 2.
Proof.
  intros Hnd Hno Hall. unfold main.
  destruct (get_top_liquid_coins_returns 100 tickers (RateGate.initial t0 ds))
    as (w' & ->).
  - reflexivity.
  - unfold RateGate.fits.
    destruct (after_reset_check_weight (RateGate.initial t0 ds)) as [-> | ->];
      vm_compute; discriminate.
  - set (tasks := map (fun symbol => (symbol, attempts symbol)) (top_coins 100 tickers)).
    assert (Hlen : List.length tasks <= 100).
    { unfold tasks, top_coins, slice_to.
      rewrite !List.length_map, length_firstn. lia. }
    rewrite (fetch_all_complete tasks completion).
    + destruct (report_succeeds timestamp
                  (map (fun t : string * attempt =>
                          (fst t, match snd t with Fetched df => Some df | _ => None end))
                       tasks) out) as (out' & Hrun & Hfigs).
      * unfold tasks. rewrite !List.map_map. simpl. rewrite List.map_id.
        apply top_coins_NoDup. exact Hnd.
      * exists out'. rewrite Hrun. split; [reflexivity | exact Hfigs].
    + intros i Hi. apply Hall. lia.
    + unfold tasks. apply List.Forall_forall. intros t Ht.
      apply in_map_iff in Ht as (s & <- & _). simpl. apply Hno.
Qed.

Lemma main_completes_witness :
  exists out',
    main [mkTicker "ETHUSDT" 500; mkTicker "BTCEUR" 900; mkTicker "BTCUSDT" 800]
      (fun s => if String.eqb s "BTCUSDT"
                then Fetched [mkKline 0 50; mkKline 60000 50; mkKline 120000 50]
                else Raised "APIError")
      (seq 0 100) (mkSheets (Ok tt) (Ok tt) (Ok tt) (Ok tt) (Ok tt))
      "2025-01-01 00:00:00" (mkOutside [] []) (RateGate.initial 0 [])
    = Some (Ok tt, out').
Proof.
  destruct (main_completes
    [mkTicker "ETHUSDT" 500; mkTicker "BTCEUR" 900; mkTicker "BTCUSDT" 800]
    (fun s => if String.eqb s "BTCUSDT"
              then Fetched [mkKline 0 50; mkKline 60000 50; mkKline 120000 50]
              else Raised "APIError")
    (seq 0 100) "2025-01-01 00:00:00" (mkOutside [] []) 0%Q [])
    as (out' & Hrun & _).
  - apply (bool_decide_unpack _). vm_compute. reflexivity.
  - intros s. destruct (String.eqb s "BTCUSDT"); discriminate.
  - intros i Hi. apply list_elem_of_In, in_seq. lia.
  - exists out'. exact Hrun.
Defined.

End MainExtras.

(** ** More on the portfolio report *)

Section PortfolioExtras.
Import Portfolio.
Local Open Scope Q_scope.

Lemma value_assets_ok_iff env assets : forall acc,
  (exists r, value_assets env acc assets = Ok r) <->
  Forall (fun a => (exists q, available a = Ok q) /\ (exists q, inOrder a = Ok q)) assets.
Proof.
  induction assets as [|a assets IH]; intros acc; simpl.
  - split; [constructor | eauto].
  - unfold bind at 1, value_asset, bind. split.
    + intros (r & Hr).
      destruct (available a) as [av|] eqn:Ha; [|discriminate].
      destruct (inOrder a) as [io|] eqn:Hi; [|discriminate].
      constructor; [eauto|].
      destruct (String.eqb (symbol a) "EUR"); [|destruct (tickerPrice env _)];
        simpl in Hr; eapply IH; eauto.
    + intros Hall. inversion Hall as [|? ? Hamounts Hrest]; subst.
      destruct Hamounts as [(av & Ha) (io & Hi)]. rewrite Ha, Hi.
      destruct (String.eqb (symbol a) "EUR"); [|destruct (tickerPrice env _)];
        simpl; apply IH; exact Hrest.
Qed.

(** X20: the portfolio is built exactly when the key and the secret are
    set, the balance is answered, every amount of every asset can be read
    and the remaining limit is answered.  What the price lookups do is of
    no matter: a lookup that raises, or an answer without a price, never
    turns the report into an error. *)
Theorem portfolio_succeeds_iff env :
  (exists d, get_bitvavo_portfolio_try env = Ok d) <->
  not_ (BITVAVO_API_KEY env) = false /\
  not_ (BITVAVO_API_SECRET env) = false /\
  exists assets, balance env = Ok assets /\
    Forall (fun a => (exists q, available a = Ok q) /\ (exists q, inOrder a = Ok q)) assets /\
    exists limit, getRemainingLimit env = Ok limit.
Proof.
  unfold get_bitvavo_portfolio_try, bind. split.
  - intros (d & Hd).
    destruct (not_ (BITVAVO_API_KEY env)); [discriminate|].
    destruct (not_ (BITVAVO_API_SECRET env)); [discriminate|]. simpl in Hd.
    destruct (balance env) as [assets|]; [|discriminate].
    destruct (value_assets env (0, []) assets) as [r|] eqn:Hv; [|discriminate].
    destruct (getRemainingLimit env) as [limit|]; [|discriminate].
    repeat split. exists assets. split; [reflexivity|]. split; [|eauto].
    eapply value_assets_ok_iff; eauto.
  - intros (-> & -> & assets & -> & Hall & limit & ->). simpl.
    apply (value_assets_ok_iff env assets (0, [])) in Hall as (r & ->). eauto.
Qed.

Lemma Qsum_nonneg xs : Forall (fun x => 0 <= x) xs -> 0 <= Qsum xs.
Proof.
  induction 1 as [|x xs Hx _ IH]; simpl; [apply Qle_refl|].
  replace 0 with (0 + 0) by reflexivity. apply Qplus_le_compat; assumption.
Qed.

(** X21: when no amount and no price is negative, neither is the value
    of the portfolio. *)
Theorem portfolio_value_nonneg env assets d :
  balance env = Ok assets ->
  get_bitvavo_portfolio_try env = Ok d ->
  Forall (fun a => (forall q, available a = Ok q -> 0 <= q) /\
                   (forall q, inOrder a = Ok q -> 0 <= q)) assets ->
  (forall market price, tickerPrice env market = Price price -> 0 <= price) ->
  exists total, d !! "portfolio_value_eur" = Some (VFloat total) /\ 0 <= total.
Proof.
  intros Hbal Htry Hamounts Hprices.
  unfold get_bitvavo_portfolio_try, bind in Htry. rewrite Hbal in Htry.
  destruct (not_ (BITVAVO_API_KEY env) || not_ (BITVAVO_API_SECRET env)); [discriminate|].
  destruct (value_assets env (0, []) assets) as [[total rows]|] eqn:Hrun; [|discriminate].
  destruct (getRemainingLimit env) as [limit|]; [|discriminate].
  injection Htry as <-. exists total. simpl. split; [apply lookup_insert_eq|].
  apply value_assets_rows in Hrun as (rows' & Hrows & Hall & Htotal).
  simpl in Hrows. subst rows'. rewrite Htotal, Qplus_0_l.
  apply Qsum_nonneg. clear Htotal Hbal. revert Hamounts.
  induction Hall as [|a row assets' rows' Hrow _ IH]; intros Hamounts; simpl;
    [constructor|].
  inversion Hamounts as [|? ? [Hav Hio] Hrest]; subst.
  constructor; [|apply IH; exact Hrest].
  destruct Hrow as (av & io & Ha & Hi & _ & _ & Heur & Hprice & Hnone).
  specialize (Hav av Ha). specialize (Hio io Hi).
  destruct (string_dec (symbol a) "EUR") as [E|E].
  - rewrite (Heur E). exact Hav.
  - destruct (tickerPrice env (symbol a ++ "-EUR")) as [e| |e|price] eqn:Hp.
    + rewrite (Hnone E) by (intros p; discriminate). apply Qle_refl.
    + rewrite (Hnone E) by (intros p; discriminate). apply Qle_refl.
    + rewrite (Hnone E) by (intros p; discriminate). apply Qle_refl.
    + rewrite (Hprice E price eq_refl). apply Qmult_le_0_compat.
      * replace 0 with (0 + 0) by reflexivity. apply Qplus_le_compat; assumption.
      * eapply Hprices; eauto.
Qed.

Lemma portfolio_value_nonneg_witness :
  exists total,
    get_bitvavo_portfolio
      (mkEnv (Some "key") (Some "secret")
         (Ok [mkAsset "EUR" (Ok 100) (Ok 50); mkAsset "BTC" (Ok 1) (Ok 1)])
         (fun market => if String.eqb market "BTC-EUR" then Price 30000 else NoPrice)
         (Ok 1000%Z) (Some "token") (Some "chat") (Ok tt))
      !! "portfolio_value_eur" = Some (VFloat total) /\ 0 <= total.
Proof.
  apply (portfolio_value_nonneg
    (mkEnv (Some "key") (Some "secret")
       (Ok [mkAsset "EUR" (Ok 100) (Ok 50); mkAsset "BTC" (Ok 1) (Ok 1)])
       (fun market => if String.eqb market "BTC-EUR" then Price 30000 else NoPrice)
       (Ok 1000%Z) (Some "token") (Some "chat") (Ok tt))
    [mkAsset "EUR" (Ok 100) (Ok 50); mkAsset "BTC" (Ok 1) (Ok 1)]).
  - reflexivity.
  - reflexivity.
  - repeat constructor; simpl; intros q [= <-]; discriminate.
  - intros market price. simpl. destruct (String.eqb market "BTC-EUR"); [|discriminate].
    intros [= <-]. discriminate.
Defined.

(** X22: a run of the reporter sends at most one message, and it sends
    one exactly when the portfolio was built, the bot token and the chat
    id are set and the bot delivers: the message goes to that chat and
    carries that portfolio. *)
Theorem main_sends_once env :
  (List.length (main env) <= 1)%nat /\
  forall chat d,
    main env = [Message chat d] <->
    get_bitvavo_portfolio_try env = Ok d /\
    not_ (TELEGRAM_BOT_TOKEN env) = false /\
    TELEGRAM_CHAT_ID env = Some chat /\ chat <> ""%string /\
    send_message env = Ok tt.
Proof.
  unfold main, get_bitvavo_portfolio.
  destruct (get_bitvavo_portfolio_try env) as [d'|e] eqn:Htry.
  - unfold no_error. rewrite (get_bitvavo_portfolio_try_keys env d' Htry).
    unfold send_to_telegram.
    destruct (not_ (TELEGRAM_BOT_TOKEN env)) eqn:Htok; simpl.
    { split; [lia|]. intros chat d. split; [discriminate|]. intros (_ & H & _). discriminate. }
    destruct (TELEGRAM_CHAT_ID env) as [chat'|] eqn:Hchat; simpl.
    + destruct (String.eqb chat' "") eqn:Hempty.
      { split; [simpl; lia|]. intros chat d. split; [discriminate|].
        intros (_ & _ & [= <-] & Hne & _). apply String.eqb_eq in Hempty. contradiction. }
      apply String.eqb_neq in Hempty.
      destruct (send_message env) as [[]|e].
      * split; [simpl; lia|]. intros chat d. split.
        -- intros [= <- <-]. repeat split; auto.
        -- intros ([= <-] & _ & [= <-] & _). reflexivity.
      * split; [simpl; lia|]. intros chat d. split; [discriminate|].
        intros (_ & _ & _ & _ & H). discriminate.
    + split; [simpl; lia|]. intros chat d. split; [discriminate|].
      intros (_ & _ & H & _). discriminate.
  - unfold no_error. rewrite lookup_singleton_eq.
    split; [simpl; lia|]. intros chat d. split; [discriminate|].
    intros (H & _). discriminate.
Qed.

End PortfolioExtras.
